(** * The Watcher: Night Shift -- game-logic core

    A shallow embedding of the logic of [src/flashlight.js], [src/enemy.js]
    and the session script (doors, input handlers, frame loop), with the
    properties of the specification stated and proved over it.

    Conventions.
    - JavaScript numbers are modelled as exact rationals [Q]: every
      comparison against a threshold and every accumulation is written as in
      the source, rounding is not modelled.
    - Mutable singletons ([gameState], [ghostState], [ghostMesh], the
      [FlashlightSystem] instance) become record values passed explicitly.
    - [Math.random()] and [Date.now()] are inputs of the frame that makes the
      calls; the camera pose, which the mouse and the timed screen shake
      write, is an input of each frame as well. [Math.sin], [Math.PI],
      [normalize] and [distanceTo] are parameters ([Externals]).
    - Rendering (materials, colours, particles, billboarding, the battery
      display) is left out: the logic only writes it. The spot light's
      intensity and the button offset are kept, as the part of the visuals
      the flashlight methods set. *)

From Stdlib Require Import QArith Qabs Qround Bool List Lia Lqa ZArith.
Import ListNotations.

Local Open Scope Q_scope.

(** ** Numbers *)

(** [a <= b] and [a < b] of the source, as booleans. *)
Definition Qleb (a b : Q) : bool := Qle_bool a b.
Definition Qltb (a b : Q) : bool := negb (Qle_bool b a).

Infix "<=?" := Qleb (at level 70, no associativity) : Q_scope.
Infix "<?" := Qltb (at level 70, no associativity) : Q_scope.

(** ** flashlight.js *)

Module Flashlight.

(** [CONFIG] *)
Definition maxBattery : Q := 6.
Definition drainRate : Q := 3.
Definition rechargeDelay : Q := 5.
Definition passiveRechargeSpeed : Q := 0.5.

(** [buttonBaseX], set by [createModel]. *)
Definition buttonBaseX : Q := -0.055.

(** The fields of a [FlashlightSystem] the methods read or write.
    [buttonX] is [buttonMesh.position.x], [lightIntensity] is
    [lightSource.intensity]. *)
Record t : Type := mk {
  isOn : bool;
  isDepleted : bool;
  battery : Q;
  usageTimer : Q;
  rechargeTimer : Q;
  buttonX : Q;
  lightIntensity : Q
}.

Definition set_isOn (b : bool) (f : t) : t :=
  mk b (isDepleted f) (battery f) (usageTimer f) (rechargeTimer f)
     (buttonX f) (lightIntensity f).
Definition set_isDepleted (b : bool) (f : t) : t :=
  mk (isOn f) b (battery f) (usageTimer f) (rechargeTimer f)
     (buttonX f) (lightIntensity f).
Definition set_battery (q : Q) (f : t) : t :=
  mk (isOn f) (isDepleted f) q (usageTimer f) (rechargeTimer f)
     (buttonX f) (lightIntensity f).
Definition set_usageTimer (q : Q) (f : t) : t :=
  mk (isOn f) (isDepleted f) (battery f) q (rechargeTimer f)
     (buttonX f) (lightIntensity f).
Definition set_rechargeTimer (q : Q) (f : t) : t :=
  mk (isOn f) (isDepleted f) (battery f) (usageTimer f) q
     (buttonX f) (lightIntensity f).
Definition set_buttonX (q : Q) (f : t) : t :=
  mk (isOn f) (isDepleted f) (battery f) (usageTimer f) (rechargeTimer f)
     q (lightIntensity f).
Definition set_lightIntensity (q : Q) (f : t) : t :=
  mk (isOn f) (isDepleted f) (battery f) (usageTimer f) (rechargeTimer f)
     (buttonX f) q.

(** [constructor]: off, not depleted, full battery, both timers 0. The spot
    light handed to it was created with intensity 0. *)
Definition constructed : t :=
  mk false false maxBattery 0 0 buttonBaseX 0.

Definition pressButton (f : t) : t :=
  set_buttonX (buttonBaseX + 0.005) f.

Definition turnOffVisuals (f : t) : t :=
  set_lightIntensity 0 f.

Definition triggerDepletion (f : t) : t :=
  turnOffVisuals (set_isDepleted true (set_isOn false f)).

Definition consumeBatteryStep (f : t) : t :=
  let f1 := set_battery (battery f - 1) f in
  if battery f1 <=? 0 then triggerDepletion (set_battery 0 f1) else f1.

(** [toggle]: the branch on [this.isOn] is taken right after the flip, so
    the statements of the on-branch that follow [consumeBatteryStep] run
    even when that step has just depleted the battery. *)
Definition toggle (f : t) : t :=
  if negb (isOn f) && (battery f <? 1) then f
  else
    let f1 := set_isOn (negb (isOn f)) f in
    if isOn f1 then
      set_lightIntensity 150 (set_usageTimer 0 (consumeBatteryStep f1))
    else turnOffVisuals f1.

Definition releaseButton (f : t) : t :=
  let f1 := set_buttonX buttonBaseX f in
  if negb (isDepleted f1) then toggle f1 else f1.

(** [update]: the forced depletion check, then the three-way branch. The
    light-source position sync of step 2 is rendering. *)
Definition update (dt : Q) (f : t) : t :=
  let f1 := if isDepleted f then turnOffVisuals (set_isOn false f) else f in
  if isDepleted f1 then
    let f2 := set_rechargeTimer (rechargeTimer f1 + dt) f1 in
    if rechargeDelay <=? rechargeTimer f2 then
      set_rechargeTimer 0 (set_isDepleted false (set_battery 1.1 f2))
    else f2
  else if isOn f1 then
    let f2 := set_usageTimer (usageTimer f1 + dt) f1 in
    if drainRate <=? usageTimer f2 then
      set_usageTimer 0 (consumeBatteryStep f2)
    else f2
  else
    if battery f1 <? maxBattery then
      let f2 := set_battery (battery f1 + passiveRechargeSpeed * dt) f1 in
      if maxBattery <? battery f2 then set_battery maxBattery f2 else f2
    else f1.

(** The calls a client can make on the object. *)
Inductive op : Type :=
| PressButton
| ReleaseButton
| Toggle
| Update (dt : Q).

Definition apply_op (o : op) (f : t) : t :=
  match o with
  | PressButton => pressButton f
  | ReleaseButton => releaseButton f
  | Toggle => toggle f
  | Update dt => update dt f
  end.

Definition run (ops : list op) (f : t) : t :=
  fold_left (fun acc o => apply_op o acc) ops f.

(** Every [Update] of the list has [0 <= dt]. *)
Definition op_ok (o : op) : Prop :=
  match o with
  | Update dt => 0 <= dt
  | _ => True
  end.

(** [update] called once per element of [dts], in order. *)
Definition updates (dts : list Q) (f : t) : t :=
  fold_left (fun acc dt => update dt acc) dts f.

(** The battery is within its bounds. *)
Definition in_range (f : t) : Prop := 0 <= battery f <= maxBattery.

(** A depleted flashlight is off and empty. *)
Definition depleted_off (f : t) : Prop :=
  isDepleted f = true -> isOn f = false /\ battery f = 0.

(** The recharge timer is below the delay and the usage timer of a lit
    flashlight below the drain period; neither is negative. *)
Definition timers_in_bounds (f : t) : Prop :=
  (0 <= rechargeTimer f /\ rechargeTimer f < rechargeDelay)
  /\ (isOn f = true -> 0 <= usageTimer f /\ usageTimer f < drainRate).

(** A lit flashlight holds what a recovery and the turning on leave. *)
Definition on_last_charge (f : t) : Prop :=
  isOn f = true -> isDepleted f = false /\ battery f = 1.1 - 1.

End Flashlight.

(** ** Shared data: vectors, the session flags, the inputs of a frame *)

(** [THREE.Vector3], by its components. *)
Record Vec3 : Type := vec3 { vx : Q; vy : Q; vz : Q }.

Definition set_x (q : Q) (v : Vec3) : Vec3 := vec3 q (vy v) (vz v).
Definition set_y (q : Q) (v : Vec3) : Vec3 := vec3 (vx v) q (vz v).
Definition set_z (q : Q) (v : Vec3) : Vec3 := vec3 (vx v) (vy v) q.

Definition subVectors (a b : Vec3) : Vec3 :=
  vec3 (vx a - vx b) (vy a - vy b) (vz a - vz b).

Definition dot (a b : Vec3) : Q :=
  vx a * vx b + vy a * vy b + vz a * vz b.

(** [p.lerp(v, alpha)]: each component moves by [(v - p) * alpha]. *)
Definition lerp (p v : Vec3) (alpha : Q) : Vec3 :=
  vec3 (vx p + (vx v - vx p) * alpha)
       (vy p + (vy v - vy p) * alpha)
       (vz p + (vz v - vz p) * alpha).

(** The library functions whose results are not rational: [Math.sin],
    [Math.PI], [Vector3.normalize] and [Vector3.distanceTo]. Nothing is
    assumed about them. *)
Class Externals : Type := {
  Math_sin : Q -> Q;
  Math_PI : Q;
  normalize : Vec3 -> Vec3;
  distanceTo : Vec3 -> Vec3 -> Q
}.

(** The global [gameState] object of the session script. *)
Record GameState : Type := mkGameState {
  isPlaying : bool;
  leftOpen : bool;
  rightOpen : bool;
  leftBroken : bool;
  rightBroken : bool;
  isGameOver : bool;
  flashlightOn : bool
}.

(** What the camera offers to the ghost logic: [camera.position] and the
    vector [camera.getWorldDirection] returns. *)
Record Camera : Type := mkCamera {
  cam_position : Vec3;
  cam_worldDirection : Vec3
}.

(** One animation frame seen from outside: [clock.getDelta()], the camera,
    the results of the [Math.random()] calls [updateEnemy] makes in the
    frame (numbered from 0 in call order) and [Date.now()]. *)
Record Frame : Type := mkFrame {
  dt : Q;
  camera : Camera;
  random : nat -> Q;
  now : Q
}.

(** The values the code stores in [attackSide] and passes as [side]: the
    strings ['none'], ['left'], ['right'], and [undefined] (an array read out
    of range). *)
Inductive Side : Type :=
| side_none
| side_left
| side_right
| side_undefined.

Definition side_eqb (a b : Side) : bool :=
  match a, b with
  | side_none, side_none => true
  | side_left, side_left => true
  | side_right, side_right => true
  | side_undefined, side_undefined => true
  | _, _ => false
  end.

(** [arr[i]] for a number [i] that is an integer: [undefined] out of range. *)
Definition array_get (arr : list Side) (i : Z) : Side :=
  if (i <? 0)%Z then side_undefined
  else nth (Z.to_nat i) arr side_undefined.

(** ** enemy.js *)

Module Enemy.

Inductive Phase : Type :=
| wander
| approach
| stalk
| attack
| retreat.

Definition phase_eqb (a b : Phase) : bool :=
  match a, b with
  | wander, wander => true
  | approach, approach => true
  | stalk, stalk => true
  | attack, attack => true
  | retreat, retreat => true
  | _, _ => false
  end.

(** [ghostState]. The fields [targetX], [speed] and [timer] are never
    used after their initialisation and are left out. *)
Record GhostState : Type := mkGhostState {
  phase : Phase;
  attackSide : Side;
  wanderTimer : Q;
  rngCheckTimer : Q;
  stalkTimer : Q;
  exposureTimer : Q
}.

Definition set_phase (p : Phase) (s : GhostState) : GhostState :=
  mkGhostState p (attackSide s) (wanderTimer s) (rngCheckTimer s)
               (stalkTimer s) (exposureTimer s).
Definition set_attackSide (a : Side) (s : GhostState) : GhostState :=
  mkGhostState (phase s) a (wanderTimer s) (rngCheckTimer s)
               (stalkTimer s) (exposureTimer s).
Definition set_wanderTimer (q : Q) (s : GhostState) : GhostState :=
  mkGhostState (phase s) (attackSide s) q (rngCheckTimer s)
               (stalkTimer s) (exposureTimer s).
Definition set_rngCheckTimer (q : Q) (s : GhostState) : GhostState :=
  mkGhostState (phase s) (attackSide s) (wanderTimer s) q
               (stalkTimer s) (exposureTimer s).
Definition set_stalkTimer (q : Q) (s : GhostState) : GhostState :=
  mkGhostState (phase s) (attackSide s) (wanderTimer s) (rngCheckTimer s)
               q (exposureTimer s).
Definition set_exposureTimer (q : Q) (s : GhostState) : GhostState :=
  mkGhostState (phase s) (attackSide s) (wanderTimer s) (rngCheckTimer s)
               (stalkTimer s) q.

(** The module's two variables: [ghostMesh] ([None] until the model has
    loaded; only its position is kept) and [ghostState]. *)
Record t : Type := mk {
  ghostMesh : option Vec3;
  ghostState : GhostState
}.

Definition initial : t :=
  mk None (mkGhostState wander side_none 0 0 0 0).

(** The completion callback of [objLoader.load] in [initEnemy]. *)
Definition modelLoaded (e : t) : t :=
  mk (Some (vec3 0 5 (-20))) (ghostState e).

(** A handler works on the mesh position and [ghostState]. *)
Definition Ghost : Type := (Vec3 * GhostState)%type.

Definition teleportToDoor (side : Side) (gh : Ghost) : Ghost :=
  let s := snd gh in
  let s := set_phase stalk s in
  let s := set_attackSide side s in
  let s := set_stalkTimer 0 s in
  let s := set_exposureTimer 0 s in
  let xPos := if side_eqb side side_left then -18 else 18 in
  (vec3 xPos 4 (-2), s).

(** [k] is the number of [Math.random()] calls made so far in the frame. *)
Definition triggerNormalAttack (f : Frame) (k : nat) (g : GameState)
    (gh : Ghost) : Ghost :=
  let (p, s) := gh in
  let s := set_phase approach s in
  let currentX := vx p in
  if leftOpen g && negb (rightOpen g) then (p, set_attackSide side_left s)
  else if rightOpen g && negb (leftOpen g) then
    (p, set_attackSide side_right s)
  else if leftOpen g && rightOpen g then
    let nearSide := if currentX <? 0 then side_left else side_right in
    (p, set_attackSide
          (if random f k <? 0.64 then nearSide
           else if side_eqb nearSide side_left then side_right
                else side_left) s)
  else
    (p, set_attackSide (if currentX <? 0 then side_left else side_right) s).

Section WithExternals.
Context {E : Externals}.

Definition handleWanderPhase (f : Frame) (g : GameState) (gh : Ghost)
    : Ghost :=
  let (p, s) := gh in
  let p := set_z (-20) p in
  if flashlightOn g then
    let s := set_wanderTimer (wanderTimer s + dt f * 0.5) s in
    let p := set_x (Math_sin (wanderTimer s) * 8) p in
    if (random f 0 <? 0.005) && (6 <? Qabs (vx p)) then
      triggerNormalAttack f 1 g (p, s)
    else (p, s)
  else
    let s := set_wanderTimer (wanderTimer s + dt f * 0.5) s in
    let p := set_x (Math_sin (wanderTimer s) * 8) p in
    let s := set_rngCheckTimer (rngCheckTimer s + dt f) s in
    if 1.5 <? rngCheckTimer s then
      let s := set_rngCheckTimer 0 s in
      if random f 0 <? 0.5 then
        let availableDoors :=
          (if leftOpen g then [side_left] else [])
          ++ (if rightOpen g then [side_right] else []) in
        if (0 <? length availableDoors)%nat then
          let chosenSide :=
            array_get availableDoors
              (Qfloor (random f 1
                       * inject_Z (Z.of_nat (length availableDoors)))) in
          teleportToDoor chosenSide (p, s)
        else (p, s)
      else (p, s)
    else (p, s).

(** The test [dot > 0.9] of the source, made only when the light is on. *)
Definition isIrradiated (f : Frame) (g : GameState) (p : Vec3) : bool :=
  if flashlightOn g then
    let toGhost :=
      normalize (subVectors p (cam_position (camera f))) in
    let camDir := cam_worldDirection (camera f) in
    0.9 <? dot camDir toGhost
  else false.

Definition handleStalkPhase (f : Frame) (g : GameState) (gh : Ghost)
    : Ghost :=
  let (p, s) := gh in
  let s := set_stalkTimer (stalkTimer s + dt f) s in
  let '(p, s) :=
    if isIrradiated f g p then
      let s := set_exposureTimer (exposureTimer s + dt f) s in
      let shakeIntensity := 0.1 in
      let p := set_x (vx p + (random f 0 - 0.5) * shakeIntensity) p in
      let p := set_y (vy p + (random f 1 - 0.5) * shakeIntensity) p in
      if 2.0 <=? exposureTimer s then (p, set_phase retreat s)
      else (p, s)
    else (p, s) in
  if (4.0 <=? stalkTimer s) && (exposureTimer s <? 2.0) then
    (p, set_phase attack s)
  else (p, s).

Definition handleApproachPhase (f : Frame) (g : GameState) (gh : Ghost)
    : Ghost :=
  let (p, s) := gh in
  let targetDoorX :=
    if side_eqb (attackSide s) side_left then -18 else 18 in
  let cornerZ := -18 in
  let doorZ := -5 in
  if vz p <? cornerZ then
    let p := set_z (vz p + dt f * 3) p in
    let p := set_x (vx p + (targetDoorX - vx p) * dt f * 2) p in
    (p, s)
  else if vz p <? doorZ then
    let p := set_x targetDoorX p in
    let p := set_z (vz p + dt f * 3) p in
    (p, s)
  else
    let isDoorOpen :=
      if side_eqb (attackSide s) side_left then leftOpen g
      else rightOpen g in
    if isDoorOpen then (p, set_phase attack s)
    else (p, set_phase retreat s).

(** Returns, with the ghost, how many times it called
    [gameOverCallback]. *)
Definition handleAttackPhase (f : Frame) (gh : Ghost) : Ghost * nat :=
  let (p, s) := gh in
  let p := lerp p (cam_position (camera f)) (dt f * 8) in
  let dist := distanceTo p (cam_position (camera f)) in
  if dist <? 0.5 then ((p, s), 1%nat) else ((p, s), 0%nat).

Definition handleRetreatPhase (f : Frame) (gh : Ghost) : Ghost :=
  let (p, s) := gh in
  let p := set_z (vz p - dt f * 10) p in
  if vz p <? -25 then
    let s := set_phase wander s in
    let p := set_z (-20) p in
    if side_eqb (attackSide s) side_left then
      (set_x (-8) p, set_wanderTimer (- Math_PI / 2) s)
    else
      (set_x 8 p, set_wanderTimer (Math_PI / 2) s)
  else (p, s).

(** [updateEnemy]; the second component counts the calls of
    [gameOverCallback] it made. *)
Definition updateEnemy (f : Frame) (g : GameState) (e : t) : t * nat :=
  match ghostMesh e with
  | None => (e, 0%nat)
  | Some p =>
    let s := ghostState e in
    let p :=
      if negb (phase_eqb (phase s) attack)
         && negb (phase_eqb (phase s) stalk)
      then
        let time := now f * 0.001 in
        set_y (4 + Math_sin (time * 2) * 0.5) p
      else p in
    let '((p, s), calls) :=
      match phase s with
      | wander => (handleWanderPhase f g (p, s), 0%nat)
      | approach => (handleApproachPhase f g (p, s), 0%nat)
      | stalk => (handleStalkPhase f g (p, s), 0%nat)
      | attack => handleAttackPhase f (p, s)
      | retreat => (handleRetreatPhase f (p, s), 0%nat)
      end in
    (mk (Some p) s, calls)
  end.

End WithExternals.

Definition resetEnemy (e : t) : t :=
  let s := ghostState e in
  let s := set_phase wander s in
  let s := set_stalkTimer 0 s in
  let s := set_exposureTimer 0 s in
  mk (match ghostMesh e with
      | Some _ => Some (vec3 0 4 (-20))
      | None => None
      end) s.

Definition isGhostBlockingDoor (side : Side) (e : t) : bool :=
  phase_eqb (phase (ghostState e)) stalk
  && side_eqb (attackSide (ghostState e)) side.

Definition onGhostHitByDoor (e : t) : t :=
  let s := ghostState e in
  let s := set_phase retreat s in
  let s := set_stalkTimer 0 s in
  let s := set_exposureTimer 0 s in
  mk (ghostMesh e) s.

(** In the stalk phase the two timers count the current stalk only. *)
Definition stalk_ok (s : GhostState) : Prop :=
  phase s = stalk ->
  0 <= exposureTimer s /\ exposureTimer s <= stalkTimer s
  /\ stalkTimer s < 4 /\ exposureTimer s < 2.

Definition timers_zero (s : GhostState) : Prop :=
  stalkTimer s = 0 /\ exposureTimer s = 0.

(** The phase changes one call of [updateEnemy] can make, as the handlers
    assign [ghostState.phase]. *)
Definition may_follow (a b : Phase) : bool :=
  match a, b with
  | wander, (wander | approach | stalk) => true
  | approach, (approach | attack | retreat) => true
  | stalk, (stalk | attack | retreat) => true
  | attack, attack => true
  | retreat, (retreat | wander) => true
  | _, _ => false
  end.

(** [attackSide] holds ['left'] or ['right']. *)
Definition is_door (a : Side) : Prop := a = side_left \/ a = side_right.

(** [attackSide] is never [undefined], and names a door in every phase but
    the wander phase. *)
Definition side_ok (s : GhostState) : Prop :=
  attackSide s <> side_undefined
  /\ (phase s <> wander -> is_door (attackSide s)).

(** The model of the ghost has loaded. *)
Definition loaded (e : t) : Prop := ghostMesh e <> None.

Section OverFrames.
Context {E : Externals}.

(** The irradiation test of [handleStalkPhase], on the ghost where it
    stands. *)
Definition lit (f : Frame) (g : GameState) (e : t) : bool :=
  match ghostMesh e with
  | Some p => isIrradiated f g p
  | None => false
  end.

(** [updateEnemy] once per frame, each frame with the [gameState] it
    finds. *)
Fixpoint ticks (fs : list (Frame * GameState)) (e : t) : t :=
  match fs with
  | [] => e
  | (f, g) :: rest => ticks rest (fst (updateEnemy f g e))
  end.

(** What the frames make of [stalkTimer], added up frame by frame as the
    handler does, from [acc]. *)
Fixpoint stalk_time (fs : list (Frame * GameState)) (acc : Q) : Q :=
  match fs with
  | [] => acc
  | (f, _) :: rest => stalk_time rest (acc + dt f)
  end.

(** What the frames make of [exposureTimer]: the frames in which the ghost
    is irradiated add their time, the others leave it. *)
Fixpoint lit_time (fs : list (Frame * GameState)) (e : t) (acc : Q) : Q :=
  match fs with
  | [] => acc
  | (f, g) :: rest =>
    lit_time rest (fst (updateEnemy f g e))
             (if lit f g e then acc + dt f else acc)
  end.

(** No frame of the list brings the stalk timer to 4 or the exposure timer
    to 2. *)
Fixpoint below (fs : list (Frame * GameState)) (e : t) : Prop :=
  match fs with
  | [] => True
  | (f, g) :: rest =>
    stalkTimer (ghostState e) + dt f < 4.0
    /\ (if lit f g e then exposureTimer (ghostState e) + dt f
        else exposureTimer (ghostState e)) < 2.0
    /\ below rest (fst (updateEnemy f g e))
  end.

(** The ghost is irradiated in every frame of the list. *)
Fixpoint all_lit (fs : list (Frame * GameState)) (e : t) : Prop :=
  match fs with
  | [] => True
  | (f, g) :: rest => lit f g e = true /\ all_lit rest (fst (updateEnemy f g e))
  end.

End OverFrames.

End Enemy.

(** ** The session script: doors, input handlers, the frame loop *)

Module Game.

Definition set_isPlaying (b : bool) (g : GameState) : GameState :=
  mkGameState b (leftOpen g) (rightOpen g) (leftBroken g) (rightBroken g)
              (isGameOver g) (flashlightOn g).
Definition set_leftOpen (b : bool) (g : GameState) : GameState :=
  mkGameState (isPlaying g) b (rightOpen g) (leftBroken g) (rightBroken g)
              (isGameOver g) (flashlightOn g).
Definition set_rightOpen (b : bool) (g : GameState) : GameState :=
  mkGameState (isPlaying g) (leftOpen g) b (leftBroken g) (rightBroken g)
              (isGameOver g) (flashlightOn g).
Definition set_leftBroken (b : bool) (g : GameState) : GameState :=
  mkGameState (isPlaying g) (leftOpen g) (rightOpen g) b (rightBroken g)
              (isGameOver g) (flashlightOn g).
Definition set_rightBroken (b : bool) (g : GameState) : GameState :=
  mkGameState (isPlaying g) (leftOpen g) (rightOpen g) (leftBroken g) b
              (isGameOver g) (flashlightOn g).
Definition set_isGameOver (b : bool) (g : GameState) : GameState :=
  mkGameState (isPlaying g) (leftOpen g) (rightOpen g) (leftBroken g)
              (rightBroken g) b (flashlightOn g).
Definition set_flashlightOn (b : bool) (g : GameState) : GameState :=
  mkGameState (isPlaying g) (leftOpen g) (rightOpen g) (leftBroken g)
              (rightBroken g) (isGameOver g) b.

(** The state of the page: [gameState], [flashlightSystem], the variables
    of enemy.js, and a counter of the executions of [onGameOver] (not in
    the source; it records the calls for the statements below). *)
Record World : Type := mkWorld {
  gameState : GameState;
  flashlightSystem : Flashlight.t;
  enemy : Enemy.t;
  gameOverCalls : nat
}.

Definition set_gameState (g : GameState) (w : World) : World :=
  mkWorld g (flashlightSystem w) (enemy w) (gameOverCalls w).
Definition set_flashlightSystem (f : Flashlight.t) (w : World) : World :=
  mkWorld (gameState w) f (enemy w) (gameOverCalls w).
Definition set_enemy (e : Enemy.t) (w : World) : World :=
  mkWorld (gameState w) (flashlightSystem w) e (gameOverCalls w).

(** The state after [init()]: the [gameState] literal, a freshly
    constructed flashlight, the ghost model not loaded yet. *)
Definition initialGameState : GameState :=
  mkGameState false true true false false false false.

Definition initial : World :=
  mkWorld initialGameState Flashlight.constructed Enemy.initial 0.

(** [triggerDoorBreak(side)]; the screen shake it schedules moves the
    camera only. *)
Definition triggerDoorBreak (side : Side) (w : World) : World :=
  let g := gameState w in
  let g := if side_eqb side side_left then set_leftBroken true g else g in
  let g := if side_eqb side side_right then set_rightBroken true g else g in
  let g := if side_eqb side side_left then set_leftOpen true g else g in
  let g := if side_eqb side side_right then set_rightOpen true g else g in
  set_enemy (Enemy.onGhostHitByDoor (enemy w)) (set_gameState g w).

Inductive KeyCode : Type :=
| KeyQ
| KeyE
| KeyOther.

(** The two doors, the side string and the key of each, and the read
    accessors [isOpen(side)] and [isBroken(side)]. *)
Inductive Door : Type :=
| LeftDoor
| RightDoor.

Definition side_of (d : Door) : Side :=
  match d with
  | LeftDoor => side_left
  | RightDoor => side_right
  end.

Definition key_of (d : Door) : KeyCode :=
  match d with
  | LeftDoor => KeyQ
  | RightDoor => KeyE
  end.

Definition other (d : Door) : Door :=
  match d with
  | LeftDoor => RightDoor
  | RightDoor => LeftDoor
  end.

Definition isOpen (d : Door) (g : GameState) : bool :=
  match d with
  | LeftDoor => leftOpen g
  | RightDoor => rightOpen g
  end.

Definition isBroken (d : Door) (g : GameState) : bool :=
  match d with
  | LeftDoor => leftBroken g
  | RightDoor => rightBroken g
  end.

(** The Q branch of the keydown listener, after the guard. *)
Definition keyQ (w : World) : World :=
  let g := gameState w in
  if leftBroken g then w
  else if leftOpen g && Enemy.isGhostBlockingDoor side_left (enemy w) then
    triggerDoorBreak side_left w
  else
    let g := set_leftOpen (negb (leftOpen g)) g in
    let g :=
      if negb (leftOpen g) && negb (rightOpen g) then set_rightOpen true g
      else g in
    set_gameState g w.

(** The E branch of the keydown listener, after the guard. *)
Definition keyE (w : World) : World :=
  let g := gameState w in
  if rightBroken g then w
  else if rightOpen g && Enemy.isGhostBlockingDoor side_right (enemy w) then
    triggerDoorBreak side_right w
  else
    let g := set_rightOpen (negb (rightOpen g)) g in
    let g :=
      if negb (rightOpen g) && negb (leftOpen g) then set_leftOpen true g
      else g in
    set_gameState g w.

(** The keydown listener. [e.code] is one string, so at most one of the
    two branches runs. *)
Definition onKeyDown (code : KeyCode) (w : World) : World :=
  if negb (isPlaying (gameState w)) || isGameOver (gameState w) then w
  else
    match code with
    | KeyQ => keyQ w
    | KeyE => keyE w
    | KeyOther => w
    end.

Definition onMouseDown (w : World) : World :=
  if isPlaying (gameState w) then
    set_flashlightSystem (Flashlight.pressButton (flashlightSystem w)) w
  else w.

Definition onMouseUp (w : World) : World :=
  if isPlaying (gameState w) then
    set_flashlightSystem (Flashlight.releaseButton (flashlightSystem w)) w
  else w.

Definition onGameOver (w : World) : World :=
  let g := set_isGameOver true (set_isPlaying false (gameState w)) in
  mkWorld g (flashlightSystem w) (enemy w) (S (gameOverCalls w)).

(** [restartGame]: it writes [battery] and [isDepleted] of the flashlight
    directly and turns it off through [toggle] when it is on; the camera
    reset is outside the state. *)
Definition restartGame (w : World) : World :=
  let g := gameState w in
  let g := set_isGameOver false g in
  let g := set_isPlaying false g in
  let g := set_leftOpen true g in
  let g := set_rightOpen true g in
  let g := set_leftBroken false g in
  let g := set_rightBroken false g in
  let fl := flashlightSystem w in
  let fl := Flashlight.set_battery 6 fl in
  let fl := Flashlight.set_isDepleted false fl in
  let fl := if Flashlight.isOn fl then Flashlight.toggle fl else fl in
  mkWorld g fl (Enemy.resetEnemy (enemy w)) (gameOverCalls w).

(** The click listener of the overlay: a restart when the game is over;
    otherwise a pointer-lock request, whose outcome arrives as a later
    pointerlockchange event. *)
Definition onOverlayClick (w : World) : World :=
  if isGameOver (gameState w) then restartGame w else w.

(** The pointerlockchange listener; [locked] is
    [document.pointerLockElement === document.body]. *)
Definition onPointerLockChange (locked : bool) (w : World) : World :=
  set_gameState (set_isPlaying locked (gameState w)) w.

(** [n] calls of a callback. *)
Fixpoint times (n : nat) (h : World -> World) (w : World) : World :=
  match n with
  | O => w
  | S k => times k h (h w)
  end.

(** [ghostState], for short. *)
Definition ghost (w : World) : Enemy.GhostState :=
  Enemy.ghostState (enemy w).

(** The two predicates on doors the statements use. *)
Definition not_both_closed (w : World) : Prop :=
  leftOpen (gameState w) || rightOpen (gameState w) = true.

Definition broken_open (d : Door) (w : World) : Prop :=
  isBroken d (gameState w) = true /\ isOpen d (gameState w) = true.

Section WithExternals.
Context {E : Externals}.

(** [animate]: the flashlight first, its [isOn] copied to
    [gameState.flashlightOn], then the ghost when the game is running.
    [gameOverCallback] is the last statement [updateEnemy] can execute,
    so running [onGameOver] after it returns is the same. *)
Definition animate (f : Frame) (w : World) : World :=
  let fl := Flashlight.update (dt f) (flashlightSystem w) in
  let g := set_flashlightOn (Flashlight.isOn fl) (gameState w) in
  let w := set_gameState g (set_flashlightSystem fl w) in
  if isPlaying g && negb (isGameOver g) then
    let (e, calls) := Enemy.updateEnemy f g (enemy w) in
    times calls onGameOver (set_enemy e w)
  else w.

(** What can happen to the page. *)
Inductive Event : Type :=
| OverlayClick
| PointerLockChange (locked : bool)
| KeyDown (code : KeyCode)
| MouseDown
| MouseUp
| GhostModelLoaded
| AnimationFrame (f : Frame).

Definition step (ev : Event) (w : World) : World :=
  match ev with
  | OverlayClick => onOverlayClick w
  | PointerLockChange locked => onPointerLockChange locked w
  | KeyDown code => onKeyDown code w
  | MouseDown => onMouseDown w
  | MouseUp => onMouseUp w
  | GhostModelLoaded => set_enemy (Enemy.modelLoaded (enemy w)) w
  | AnimationFrame f => animate f w
  end.

Fixpoint run (evs : list Event) (w : World) : World :=
  match evs with
  | [] => w
  | ev :: rest => run rest (step ev w)
  end.

(** The clock never runs backwards: [clock.getDelta()] is not negative. *)
Definition event_ok (ev : Event) : Prop :=
  match ev with
  | AnimationFrame f => 0 <= dt f
  | _ => True
  end.

(** Does the event run [restartGame]? Only a click on the overlay does, and
    only when the game is over. *)
Definition restarts (ev : Event) (w : World) : bool :=
  match ev with
  | OverlayClick => isGameOver (gameState w)
  | _ => false
  end.

(** No event of the list, run from [w], restarts the game. *)
Fixpoint same_session (evs : list Event) (w : World) : Prop :=
  match evs with
  | [] => True
  | ev :: rest => restarts ev w = false /\ same_session rest (step ev w)
  end.

(** A broken door is open. *)
Definition broken_doors_open (w : World) : Prop :=
  forall d, isBroken d (gameState w) = true -> isOpen d (gameState w) = true.

(** The door the ghost stalks at is open. *)
Definition stalked_door_open (w : World) : Prop :=
  forall d,
    Enemy.isGhostBlockingDoor (side_of d) (enemy w) = true ->
    isOpen d (gameState w) = true.

(** The flashlight of the session is within the bounds of the class. *)
Definition flashlight_ok (w : World) : Prop :=
  Flashlight.in_range (flashlightSystem w)
  /\ Flashlight.depleted_off (flashlightSystem w).

(** [Math.random()] returns a number from 0 up to, not including, 1; only
    the second draw of a frame is used as an array index. *)
Definition draws_ok (ev : Event) : Prop :=
  match ev with
  | AnimationFrame f => 0 <= random f 1 /\ random f 1 < 1
  | _ => True
  end.

(** An event other than the completion of the model load. *)
Definition not_loaded (ev : Event) : Prop :=
  match ev with
  | GhostModelLoaded => False
  | _ => True
  end.

End WithExternals.

End Game.

(** ** flashlight.js: the battery display *)

Module Display.

(** [CONFIG.barColors], and the two colours of the flashing first bar. *)
Definition active : Z := 0x00ff00.
Definition inactive : Z := 0x002200.
Definition warning : Z := 0xff0000.
Definition flash_on : Z := 0xff0000.
Definition flash_off : Z := 0x000000.

Section WithExternals.
Context {E : Externals}.

(** The colour [updateDisplay] gives to the bar at [index]; [now] is
    [Date.now()]. *)
Definition barColor (now : Q) (f : Flashlight.t) (index : nat) : Z :=
  let currentBars := Qceiling (Flashlight.battery f) in
  let c :=
    if (Z.of_nat index <? currentBars)%Z then
      if Flashlight.isDepleted f || (currentBars <=? 1)%Z then warning
      else active
    else inactive in
  if Flashlight.isDepleted f && (index =? 0)%nat then
    let flash := 0 <? Math_sin (now * 0.01) in
    if flash then flash_on else flash_off
  else c.

(** [updateDisplay]: the colours of the six bars of [batteryBars]. *)
Definition updateDisplay (now : Q) (f : Flashlight.t) : list Z :=
  map (barColor now f) (seq 0 6).

End WithExternals.

(** How many bars are not in the dark colour. *)
Definition litBars (bars : list Z) : nat :=
  length (filter (fun c => negb (c =? inactive)%Z) bars).

End Display.

(** ** The session script: the mousemove listener *)

Module Look.

(** [camera.rotation.x] and [camera.rotation.y]. *)
Record t : Type := mk { rx : Q; ry : Q }.

(** [Math.max] and [Math.min] on two numbers. *)
Definition Math_max (a b : Q) : Q := if a <? b then b else a.
Definition Math_min (a b : Q) : Q := if b <? a then b else a.

(** The listener; it returns at once unless [gameState.isPlaying]. *)
Definition onMouseMove (isPlaying : bool) (movementX movementY : Q) (r : t)
    : t :=
  if negb isPlaying then r
  else
    let y := ry r - movementX * 0.002 in
    let x := rx r - movementY * 0.002 in
    mk (Math_max (-1) (Math_min 1 x)) y.

(** [camera.rotation.set(0, 0, 0)], at construction and in [restartGame]. *)
Definition reset : t := mk 0 0.

(** What moves the view: the mouse, or a restart. *)
Inductive move : Type :=
| MouseMove (isPlaying : bool) (movementX movementY : Q)
| Restart.

Definition apply_move (m : move) (r : t) : t :=
  match m with
  | MouseMove p dx dy => onMouseMove p dx dy r
  | Restart => reset
  end.

Definition run (ms : list move) (r : t) : t :=
  fold_left (fun acc m => apply_move m acc) ms r.

(** The pitch is within the clamp. *)
Definition pitch_ok (r : t) : Prop := -1 <= rx r /\ rx r <= 1.

End Look.

(** ** Executable stand-ins for the library functions

    Rational approximations of [Math.sin], [Math.PI], [normalize] and
    [distanceTo], used to run the model on concrete frames. The general
    statements below hold for every [Externals]. *)

Module Approx.

(** Rounds down to nine decimals. *)
Definition round9 (q : Q) : Q :=
  Qred (inject_Z (Qfloor (q * 1000000000)) / 1000000000).

(** [n] Newton steps towards the square root of [x], from [g], each
    rounded. *)
Fixpoint newton (n : nat) (x g : Q) : Q :=
  match n with
  | O => g
  | S k => newton k x (round9 ((g + x / g) / 2))
  end.

Definition sqrt (x : Q) : Q :=
  if x <=? 0 then 0 else newton 40 x (round9 ((x + 1) / 2)).

Definition length (v : Vec3) : Q := sqrt (dot v v).

(** [normalize] leaves the zero vector as it is. *)
Definition normalize (v : Vec3) : Vec3 :=
  let l := length v in
  if l <=? 0 then v else vec3 (vx v / l) (vy v / l) (vz v / l).

Definition distanceTo (a b : Vec3) : Q := length (subVectors a b).

Definition PI : Q := 3.14159265358979.

(** The sine by its series up to the power 11, after reduction of the
    argument to the interval from [- PI] to [PI]. *)
Definition sin (x : Q) : Q :=
  let k := Qfloor ((x + PI) / (2 * PI)) in
  let y := Qred (x - inject_Z k * (2 * PI)) in
  let y2 := Qred (y * y) in
  round9
    (y * (1 - y2 / 6 * (1 - y2 / 20 * (1 - y2 / 42 * (1 - y2 / 72
            * (1 - y2 / 110)))))).

Definition externals : Externals :=
  Build_Externals sin PI normalize distanceTo.

End Approx.

(** ** Sample inputs *)

Module Samples.

(** Flashlights: at 0.4 units and off; depleted, 1.5 seconds into the
    recharge delay, button held; at exactly one unit and off. *)
Definition low_flashlight : Flashlight.t :=
  Flashlight.mk false false 0.4 0 0 Flashlight.buttonBaseX 0.
Definition depleted_flashlight : Flashlight.t :=
  Flashlight.mk false true 0 0 1.5 (Flashlight.buttonBaseX + 0.005) 0.
Definition one_unit_flashlight : Flashlight.t :=
  Flashlight.mk false false 1 3 0 Flashlight.buttonBaseX 0.

(** Ten releases of the button take the battery from 6 to 1 with the light
    off; the eleventh depletes it. *)
Definition drain_to_one : list Flashlight.op :=
  repeat Flashlight.ReleaseButton 10.

(** The camera stays where [init] puts it; it looks straight ahead, or at
    the spot outside the left door where the ghost stalks. *)
Definition seat : Vec3 := vec3 0 5 5.
Definition ahead : Camera := mkCamera seat (vec3 0 0 (-1)).
Definition at_left_door : Camera :=
  mkCamera seat (vec3 (-0.93) (-0.05) (-0.36)).

(** Frames of [d] seconds in which every [Math.random()] returns 0. *)
Definition frame_ahead (d : Q) : Frame :=
  mkFrame d ahead (fun _ => 0) 1700000000000.
Definition frame_at_left_door (d : Q) : Frame :=
  mkFrame d at_left_door (fun _ => 0) 1700000000000.

Definition frames (n : nat) (f : Frame) : list Game.Event :=
  repeat (Game.AnimationFrame f) n.

Definition click_flashlight : list Game.Event :=
  [Game.MouseDown; Game.MouseUp].

(** The model loads, the player locks the pointer, and after two seconds in
    the dark the ghost teleports to the left door. *)
Definition to_stalk : list Game.Event :=
  [Game.GhostModelLoaded; Game.PointerLockChange true]
  ++ frames 4 (frame_ahead 0.5).

(** Then the player lights the ghost for two seconds. *)
Definition banish_trace : list Game.Event :=
  to_stalk ++ click_flashlight ++ frames 4 (frame_at_left_door 0.5).

(** Or lets four seconds pass: the ghost attacks; the player turns the light
    on, and three frames later the ghost is on the camera. *)
Definition to_attack : list Game.Event :=
  to_stalk ++ frames 8 (frame_ahead 0.5).
Definition game_over_trace : list Game.Event :=
  to_attack ++ click_flashlight ++ frames 3 (frame_ahead 0.1).

(** The player empties the battery while the ghost attacks, the game ends
    0.3 seconds into the recharge delay and is restarted; in the new session
    the player empties the battery again. *)
Definition releases (n : nat) : list Game.Event :=
  repeat Game.MouseUp n.
Definition depleted_again : list Game.Event :=
  to_attack ++ releases 11 ++ frames 3 (frame_ahead 0.1)
  ++ [Game.OverlayClick; Game.PointerLockChange true] ++ releases 11.

Definition play (evs : list Game.Event) : Game.World :=
  Game.run (E := Approx.externals) evs Game.initial.

(** Where the ghost is, once its model has loaded. *)
Definition mesh_position (w : Game.World) : Vec3 :=
  match Enemy.ghostMesh (Game.enemy w) with
  | Some p => p
  | None => vec3 0 0 0
  end.

(** [gameState] of a running game with both doors open, the flashlight on or
    off; and with the left door closed. *)
Definition lit_game : GameState :=
  mkGameState true true true false false false true.
Definition dark_game : GameState :=
  mkGameState true true true false false false false.
Definition left_shut_game : GameState :=
  mkGameState true false true false false false true.

(** A frame of [d] seconds in which every [Math.random()] returns 0.001. *)
Definition frame_low_draws (d : Q) : Frame :=
  mkFrame d ahead (fun _ => 0.001) 1700000000000.

(** A ghost wandering near the left end of its path. *)
Definition wandering_ghost : Enemy.t :=
  Enemy.mk (Some (vec3 (-7) 4 (-20)))
           (Enemy.mkGhostState Enemy.wander side_none (-1.3) 0 0 0).

(** The player shuts the left door on the stalking ghost. *)
Definition after_break : list Game.Event :=
  to_stalk ++ [Game.KeyDown Game.KeyQ].

(** The ghost attacks; the player shuts both doors in turn, clicks the
    flashlight, pauses and comes back: it still attacks. *)
Definition panic : list Game.Event :=
  [Game.KeyDown Game.KeyQ; Game.KeyDown Game.KeyE; Game.MouseDown;
   Game.MouseUp; Game.PointerLockChange false; Game.OverlayClick;
   Game.PointerLockChange true; Game.AnimationFrame (frame_ahead 0.01)].

(** The player starts, uses the doors and the light, and frames pass, before
    the model has loaded. *)
Definition before_load : list Game.Event :=
  [Game.PointerLockChange true; Game.AnimationFrame (frame_ahead 2);
   Game.KeyDown Game.KeyQ; Game.MouseUp;
   Game.AnimationFrame (frame_at_left_door 3)].

(** Frames of half a second seen by the ghost: the flashlight on and aimed
    at the left door, and on but aimed straight ahead. *)
Definition aimed (n : nat) : list (Frame * GameState) :=
  repeat (frame_at_left_door 0.5, lit_game) n.
Definition turned_away (n : nat) : list (Frame * GameState) :=
  repeat (frame_ahead 0.5, lit_game) n.

(** The player empties the battery while the ghost attacks; the game ends in
    the next frame and seven more frames pass on the game-over screen, a
    second in all; the player restarts and takes the battery down to one
    unit. *)
Definition restarted_in_recharge : list Game.Event :=
  to_attack ++ releases 11 ++ frames 8 (frame_ahead 0.125)
  ++ [Game.OverlayClick; Game.PointerLockChange true] ++ releases 10.

End Samples.

(** * Properties *)

Lemma Qleb_true (a b : Q) : (a <=? b) = true <-> a <= b.
Proof. unfold Qleb. apply Qle_bool_iff. Qed.

Lemma Qleb_false (a b : Q) : (a <=? b) = false <-> b < a.
Proof.
  unfold Qleb. split; intro H.
  - apply Qnot_le_lt. intro Hle. apply Qle_bool_iff in Hle. congruence.
  - destruct (Qle_bool a b) eqn:E; [|reflexivity].
    apply Qle_bool_iff in E. exfalso. apply (Qlt_not_le _ _ H E).
Qed.

Lemma Qltb_true (a b : Q) : (a <? b) = true <-> a < b.
Proof.
  unfold Qltb. rewrite negb_true_iff. apply (Qleb_false b a).
Qed.

Lemma Qltb_false (a b : Q) : (a <? b) = false <-> b <= a.
Proof.
  unfold Qltb. rewrite negb_false_iff. apply (Qleb_true b a).
Qed.

(** Turns every boolean comparison in the context and the goal into its
    proposition, for [lra]. *)
Ltac qprop :=
  repeat match goal with
  | H : (_ <=? _) = true |- _ => apply Qleb_true in H
  | H : (_ <=? _) = false |- _ => apply Qleb_false in H
  | H : (_ <? _) = true |- _ => apply Qltb_true in H
  | H : (_ <? _) = false |- _ => apply Qltb_false in H
  | |- (_ <=? _) = true => apply Qleb_true
  | |- (_ <=? _) = false => apply Qleb_false
  | |- (_ <? _) = true => apply Qltb_true
  | |- (_ <? _) = false => apply Qltb_false
  end.

(** The same through conjunctions of conditions. *)
Ltac bprop :=
  repeat match goal with
  | H : _ && _ = true |- _ => apply andb_true_iff in H; destruct H
  | H : _ && _ = false |- _ => apply andb_false_iff in H; destruct H
  | H : _ /\ _ |- _ => destruct H
  end; qprop.

(** Splits on a condition of the goal that has no condition inside. *)
Ltac case_cond :=
  match goal with
  | |- context [if ?c then _ else _] =>
    lazymatch c with
    | context [if _ then _ else _] => fail
    | _ => destruct c eqn:?
    end
  end.

(** ** The flashlight *)

Module FlashlightFacts.
Import Flashlight.
Import Samples.

(** Splits on the next condition the goal branches on. *)
Ltac split_if :=
  match goal with
  | |- context [if ?c then _ else _] => destruct c eqn:?
  end.

(** Opens the record, runs the method, and settles each branch by linear
    arithmetic. *)
Ltac by_cases f :=
  destruct f; cbn in *; subst; cbn;
  repeat (split_if; cbn in *);
  try discriminate; qprop; cbn in *;
  unfold maxBattery, rechargeDelay, drainRate, passiveRechargeSpeed in *;
  repeat split; try reflexivity; try discriminate; try lra.

Lemma pressButton_in_range f : in_range f -> in_range (pressButton f).
Proof. unfold in_range, maxBattery. intros [H0 H6]. by_cases f. Qed.

Lemma toggle_in_range f : in_range f -> in_range (toggle f).
Proof.
  unfold in_range, maxBattery, toggle, consumeBatteryStep, triggerDepletion,
    turnOffVisuals.
  intros [H0 H6]. by_cases f.
Qed.

Lemma releaseButton_in_range f : in_range f -> in_range (releaseButton f).
Proof.
  intro H. unfold releaseButton.
  assert (Hb : in_range (set_buttonX buttonBaseX f)) by (destruct f; exact H).
  destruct (negb (isDepleted (set_buttonX buttonBaseX f)));
    [apply toggle_in_range|]; exact Hb.
Qed.

Lemma update_in_range dt f : 0 <= dt -> in_range f -> in_range (update dt f).
Proof.
  unfold in_range, maxBattery, update, consumeBatteryStep, triggerDepletion,
    turnOffVisuals, rechargeDelay, drainRate, passiveRechargeSpeed.
  intros Hdt [H0 H6]. by_cases f.
Qed.

Lemma apply_op_in_range o f : op_ok o -> in_range f -> in_range (apply_op o f).
Proof.
  destruct o; cbn; intros Hok H.
  - now apply pressButton_in_range.
  - now apply releaseButton_in_range.
  - now apply toggle_in_range.
  - now apply update_in_range.
Qed.

Lemma run_in_range ops : forall f,
  Forall op_ok ops -> in_range f -> in_range (run ops f).
Proof.
  induction ops as [|o ops IH]; intros f Hok H; cbn.
  - exact H.
  - inversion Hok; subst. apply IH; [assumption|].
    now apply apply_op_in_range.
Qed.

Lemma constructed_in_range : in_range constructed.
Proof. unfold in_range, constructed, maxBattery; cbn. lra. Qed.

(** C6. Whatever the buttons do and however many frames pass, each with a
    time step that is not negative, the battery of a flashlight that
    started from its constructor stays between 0 and 6. *)
Theorem battery_bounds (ops : list op) :
  Forall op_ok ops ->
  0 <= battery (run ops constructed) <= 6.
Proof.
  intro Hok. apply (run_in_range ops constructed Hok constructed_in_range).
Qed.

Lemma battery_bounds_witness :
  0 <= battery (run [ReleaseButton; Update 3; Update 0.5; Toggle;
                     PressButton; ReleaseButton; Update 7] constructed) <= 6.
Proof.
  apply battery_bounds.
  repeat constructor; cbn; lra.
Defined.

(** C8. With less than one unit left, [toggle] on a flashlight that is off
    changes nothing at all; and on a depleted flashlight [releaseButton]
    only puts the button back, it does not reach [toggle], so [isOn] stays
    as it was. *)
Theorem depletion_gate (f : t) :
  (isOn f = false -> battery f < 1 -> toggle f = f)
  /\ (isDepleted f = true ->
      releaseButton f = set_buttonX buttonBaseX f
      /\ isOn (releaseButton f) = isOn f).
Proof.
  split.
  - intros Hoff Hlow. unfold toggle. rewrite Hoff. cbn.
    apply Qltb_true in Hlow. rewrite Hlow. reflexivity.
  - intro Hdep. unfold releaseButton.
    assert (Hd : isDepleted (set_buttonX buttonBaseX f) = true)
      by (destruct f; exact Hdep).
    rewrite Hd. cbn. split; [reflexivity | destruct f; reflexivity].
Qed.

Lemma depletion_gate_witness :
  toggle low_flashlight = low_flashlight
  /\ isOn (releaseButton depleted_flashlight) = false.
Proof.
  split.
  - apply (proj1 (depletion_gate low_flashlight)); [reflexivity|].
    cbn. lra.
  - apply (proj2 (depletion_gate depleted_flashlight)). reflexivity.
Defined.

(** C10. Turning on with exactly one unit left: the unit taken at once
    empties the battery, so [toggle] returns with the flashlight off,
    depleted, and the battery at 0. *)
Theorem toggle_last_unit (f : t) :
  isOn f = false -> isDepleted f = false ->
  1 <= battery f -> battery f - 1 <= 0 ->
  isOn (toggle f) = false
  /\ isDepleted (toggle f) = true
  /\ battery (toggle f) = 0.
Proof.
  intros Hoff Hdep H1 H0.
  unfold toggle, consumeBatteryStep, triggerDepletion, turnOffVisuals.
  by_cases f.
Qed.

Lemma toggle_last_unit_witness :
  isOn (toggle one_unit_flashlight) = false
  /\ isDepleted (toggle one_unit_flashlight) = true
  /\ battery (toggle one_unit_flashlight) = 0.
Proof.
  apply toggle_last_unit; cbn; try reflexivity; lra.
Defined.

(** The statements of the on-branch still run in that call: the spot light
    is at 150 when [toggle] returns, and the next [update] puts it out. *)
Lemma toggle_last_unit_light (f : t) (dt : Q) :
  isOn f = false -> 1 <= battery f -> battery f - 1 <= 0 ->
  lightIntensity (toggle f) = 150
  /\ lightIntensity (update dt (toggle f)) = 0.
Proof.
  intros Hoff H1 H0.
  assert (Hlt : (battery f <? 1) = false) by (qprop; exact H1).
  assert (Hle : (battery f - 1 <=? 0) = true) by (qprop; exact H0).
  unfold update, toggle, consumeBatteryStep, triggerDepletion,
    turnOffVisuals.
  destruct f; cbn in *; subst. rewrite Hlt. cbn. rewrite Hle. cbn.
  split; [reflexivity|].
  destruct (rechargeDelay <=? rechargeTimer0 + dt); reflexivity.
Qed.

(** *** Recovery from depletion *)

(** An update that leaves the recharge timer below the delay: the
    flashlight stays depleted and off, and the battery is not recharged. *)
Lemma update_waits dt f :
  isDepleted f = true -> rechargeTimer f + dt < rechargeDelay ->
  isDepleted (update dt f) = true
  /\ isOn (update dt f) = false
  /\ battery (update dt f) = battery f
  /\ rechargeTimer (update dt f) = rechargeTimer f + dt.
Proof.
  intros Hdep Hlt.
  assert (Hc : (rechargeDelay <=? rechargeTimer f + dt) = false)
    by (qprop; exact Hlt).
  unfold update, turnOffVisuals.
  destruct f; cbn in *; subst; cbn. rewrite Hc. repeat split.
Qed.

(** The update at which the recharge timer reaches the delay. *)
Lemma update_recovers dt f :
  isDepleted f = true -> rechargeDelay <= rechargeTimer f + dt ->
  battery (update dt f) = 1.1
  /\ isDepleted (update dt f) = false
  /\ rechargeTimer (update dt f) = 0.
Proof.
  intros Hdep Hge. unfold update, turnOffVisuals, rechargeDelay in *.
  destruct f; cbn in *; subst; cbn.
  destruct (5 <=? rechargeTimer0 + dt) eqn:Hc; cbn.
  - repeat split.
  - qprop. lra.
Qed.

(** *** On and depleted exclude each other *)

Lemma apply_op_depleted_off o f :
  depleted_off f -> depleted_off (apply_op o f).
Proof.
  unfold depleted_off.
  destruct o; cbn;
    unfold pressButton, releaseButton, update, toggle, consumeBatteryStep,
      triggerDepletion, turnOffVisuals;
    destruct f as [on dep b u r bx li]; cbn in *; intro H;
    destruct dep; cbn in *;
    try (destruct (H eq_refl) as [Hon Hb]; subst; cbn);
    repeat (case_cond; cbn in * ); intros; try discriminate;
    try (split; reflexivity); auto.
Qed.

Lemma run_depleted_off ops : forall f,
  depleted_off f -> depleted_off (run ops f).
Proof.
  induction ops as [|o ops IH]; intros f H; cbn; [exact H|].
  apply IH. now apply apply_op_depleted_off.
Qed.

(** X3. A flashlight used from its constructor on is never on and depleted at
    once; while it is depleted its battery is at 0. *)
Theorem on_excludes_depleted (ops : list op) :
  isOn (run ops constructed) && isDepleted (run ops constructed) = false
  /\ (isDepleted (run ops constructed) = true ->
      battery (run ops constructed) = 0).
Proof.
  assert (H : depleted_off (run ops constructed))
    by (apply run_depleted_off; intro Hd; discriminate Hd).
  unfold depleted_off in H.
  destruct (isDepleted (run ops constructed)).
  - destruct (H eq_refl) as [Hon Hb]. rewrite Hon. split; auto.
  - rewrite andb_false_r. split; [reflexivity | discriminate].
Qed.

End FlashlightFacts.

(** ** The ghost *)

Module EnemyFacts.
Import Enemy.

Section WithExternals.
Context {E : Externals}.

(** What one tick of the stalk phase does to [ghostState], by cases on
    irradiation and the two thresholds. *)
Lemma handleStalkPhase_state (f : Frame) (g : GameState) (p : Vec3)
    (s : GhostState) :
  let s' := snd (handleStalkPhase f g (p, s)) in
  stalkTimer s' = stalkTimer s + dt f
  /\ exposureTimer s' =
       (if isIrradiated f g p then exposureTimer s + dt f
        else exposureTimer s)
  /\ phase s' =
       (if (4.0 <=? stalkTimer s') && (exposureTimer s' <? 2.0)
        then attack
        else if isIrradiated f g p && (2.0 <=? exposureTimer s')
             then retreat
             else phase s)
  /\ attackSide s' = attackSide s.
Proof.
  unfold handleStalkPhase. destruct s; cbn.
  destruct (isIrradiated f g p); cbn.
  all: repeat (case_cond; cbn in * ); repeat split; congruence.
Qed.

(** One call of [updateEnemy] on a loaded, stalking ghost: both timers and
    the phase after it. *)
Lemma stalk_tick (f : Frame) (g : GameState) (e : t) :
  loaded e -> phase (ghostState e) = stalk ->
  let s := ghostState e in
  let s' := ghostState (fst (updateEnemy f g e)) in
  loaded (fst (updateEnemy f g e))
  /\ stalkTimer s' = stalkTimer s + dt f
  /\ exposureTimer s' =
       (if lit f g e then exposureTimer s + dt f else exposureTimer s)
  /\ phase s' =
       (if (4.0 <=? stalkTimer s') && (exposureTimer s' <? 2.0)
        then attack
        else if lit f g e && (2.0 <=? exposureTimer s')
             then retreat
             else stalk).
Proof.
  unfold loaded, lit. intros Hl Hph.
  destruct e as [[p|] s0]; [|contradiction Hl; reflexivity].
  cbn [ghostMesh ghostState] in *.
  destruct (handleStalkPhase_state f g p s0) as (Ha & Hb & Hc & _).
  unfold updateEnemy. cbn [ghostMesh ghostState]. cbv zeta.
  rewrite Hph in *. cbn [phase_eqb negb andb].
  destruct (handleStalkPhase f g (p, s0)) as [p' s']. cbn [fst snd] in *.
  cbn [ghostMesh ghostState].
  repeat split; try assumption. discriminate.
Qed.

(** While neither threshold is reached the ghost keeps stalking, and its two
    timers are what the frames add up to. *)
Lemma stalk_run (fs : list (Frame * GameState)) : forall e : t,
  loaded e -> phase (ghostState e) = stalk -> below fs e ->
  loaded (ticks fs e)
  /\ phase (ghostState (ticks fs e)) = stalk
  /\ stalkTimer (ghostState (ticks fs e))
     = stalk_time fs (stalkTimer (ghostState e))
  /\ exposureTimer (ghostState (ticks fs e))
     = lit_time fs e (exposureTimer (ghostState e)).
Proof.
  induction fs as [|[f g] fs IH]; intros e Hl Hph Hb.
  - cbn. repeat split; assumption.
  - cbn [ticks stalk_time lit_time below] in *.
    destruct Hb as (Hs & Hx & Hrest).
    destruct (stalk_tick f g e Hl Hph) as (Hl' & Ha & Hb' & Hc).
    assert (Hph' : phase (ghostState (fst (updateEnemy f g e))) = stalk).
    { rewrite Hc.
      replace (4.0 <=? stalkTimer (ghostState (fst (updateEnemy f g e))))
        with false by (symmetry; qprop; rewrite Ha; exact Hs).
      replace (2.0 <=? exposureTimer (ghostState (fst (updateEnemy f g e))))
        with false by (symmetry; qprop; rewrite Hb'; exact Hx).
      rewrite andb_false_r. reflexivity. }
    destruct (IH _ Hl' Hph' Hrest) as (H1 & H2 & H3 & H4).
    rewrite Ha in H3. rewrite Hb' in H4.
    repeat split; assumption.
Qed.

(** Irradiated in every frame, the exposure timer gets what the stalk timer
    gets. *)
Lemma all_lit_time (fs : list (Frame * GameState)) : forall (e : t) (acc : Q),
  all_lit fs e -> lit_time fs e acc = stalk_time fs acc.
Proof.
  induction fs as [|[f g] fs IH]; intros e acc Hall; [reflexivity|].
  cbn [lit_time stalk_time all_lit] in *. destruct Hall as [Hl Hrest].
  rewrite Hl. now apply IH.
Qed.

(** C7. A loaded ghost stalks, and frames pass that bring neither the stalk
    timer to 4 nor the exposure timer to 2. It is then still stalking; its
    stalk timer has taken the time of every frame and its exposure timer the
    time of the frames in which it was irradiated -- nothing decays -- so
    under continuous irradiation from the teleport on the two are equal. In
    the next frame: irradiated, with the exposure reaching 2, the ghost
    retreats, whatever the stalk timer; with the stalk timer reaching 4 and
    the exposure still below 2, it attacks; not irradiated, the exposure
    stays as it is. *)
Theorem exposure_to_banishment (fs : list (Frame * GameState)) (e : t)
    (f : Frame) (g : GameState) :
  loaded e -> phase (ghostState e) = stalk -> below fs e ->
  let s1 := ghostState (ticks fs e) in
  let s2 := ghostState (fst (updateEnemy f g (ticks fs e))) in
  phase s1 = stalk
  /\ stalkTimer s1 = stalk_time fs (stalkTimer (ghostState e))
  /\ exposureTimer s1 = lit_time fs e (exposureTimer (ghostState e))
  /\ (all_lit fs e ->
      exposureTimer (ghostState e) = stalkTimer (ghostState e) ->
      exposureTimer s1 = stalkTimer s1)
  /\ (lit f g (ticks fs e) = true -> 2 <= exposureTimer s1 + dt f ->
      phase s2 = retreat /\ exposureTimer s2 = exposureTimer s1 + dt f)
  /\ (4 <= stalkTimer s1 + dt f ->
      (if lit f g (ticks fs e) then exposureTimer s1 + dt f
       else exposureTimer s1) < 2 ->
      phase s2 = attack)
  /\ (lit f g (ticks fs e) = false -> exposureTimer s2 = exposureTimer s1).
Proof.
  intros Hl Hph Hb s1 s2.
  destruct (stalk_run fs e Hl Hph Hb) as (Hl1 & Hph1 & Hst & Hex).
  destruct (stalk_tick f g (ticks fs e) Hl1 Hph1) as (_ & Ha & Hb' & Hc).
  fold s1 in Hph1, Hst, Hex, Ha, Hb', Hc. fold s2 in Ha, Hb', Hc.
  split; [exact Hph1|]. split; [exact Hst|]. split; [exact Hex|].
  split; [|split; [|split]].
  - intros Hall Heq. rewrite Hst, Hex, Heq. now apply all_lit_time.
  - intros Hlit Hge. rewrite Hlit in Hb', Hc. split; [|exact Hb'].
    rewrite Hc.
    replace (exposureTimer s2 <? 2.0) with false
      by (symmetry; qprop; rewrite Hb'; lra).
    replace (2.0 <=? exposureTimer s2) with true
      by (symmetry; qprop; rewrite Hb'; lra).
    rewrite andb_false_r. reflexivity.
  - intros H4 H2. rewrite Hc.
    replace (4.0 <=? stalkTimer s2) with true
      by (symmetry; qprop; rewrite Ha; lra).
    replace (exposureTimer s2 <? 2.0) with true
      by (symmetry; qprop; rewrite Hb'; lra).
    reflexivity.
  - intro Hdark. rewrite Hdark in Hb'. exact Hb'.
Qed.

(** *** One call of [updateEnemy] and the stalk timers *)

(** Runs [updateEnemy] symbolically through every branch. *)
Ltac run_updateEnemy e :=
  unfold updateEnemy, handleWanderPhase, handleApproachPhase,
    handleStalkPhase, handleAttackPhase, handleRetreatPhase,
    triggerNormalAttack, teleportToDoor;
  destruct e as [[p|] [ph sd wt rt st ex]]; cbn in *;
  [destruct ph; cbn in *; repeat (case_cond; cbn in * ) | ].

Lemma updateEnemy_stalk_ok (f : Frame) (g : GameState) (e : t) :
  0 <= dt f -> stalk_ok (ghostState e) ->
  stalk_ok (ghostState (fst (updateEnemy f g e))).
Proof.
  unfold stalk_ok. intros Hdt H.
  run_updateEnemy e; intros; try discriminate;
    try (specialize (H eq_refl));
    try (match goal with H0 : _ = stalk |- _ => specialize (H H0) end);
    bprop; cbn in *; repeat split; try lra; auto.
Qed.

(** The stalk phase is entered with both timers at 0, and only from a
    teleport: in the dark, to a door that is open. *)
Lemma updateEnemy_entry (f : Frame) (g : GameState) (e : t) :
  phase (ghostState e) <> stalk ->
  phase (ghostState (fst (updateEnemy f g e))) = stalk ->
  timers_zero (ghostState (fst (updateEnemy f g e)))
  /\ phase (ghostState e) = wander
  /\ flashlightOn g = false
  /\ leftOpen g || rightOpen g = true.
Proof.
  unfold timers_zero. intros Hne.
  run_updateEnemy e; intros; try discriminate; try contradiction;
    repeat split; try reflexivity.
Qed.

(** The two exits the stalk phase takes by itself leave the timers at the
    values that caused them. *)
Lemma updateEnemy_exit (f : Frame) (g : GameState) (e : t) :
  phase (ghostState e) = stalk ->
  let s' := ghostState (fst (updateEnemy f g e)) in
  (phase s' = retreat -> 2 <= exposureTimer s')
  /\ (phase s' = attack -> 4 <= stalkTimer s').
Proof.
  intros Hst.
  run_updateEnemy e; try discriminate; split; intros;
    try discriminate; bprop; cbn in *; try lra; congruence.
Qed.

(** [updateEnemy] calls [gameOverCallback] at most once, and exactly once in
    the attack phase when the ghost ends the frame closer than 0.5 to the
    camera. *)
Lemma updateEnemy_calls (f : Frame) (g : GameState) (e : t) :
  (snd (updateEnemy f g e) <= 1)%nat
  /\ (forall p,
        ghostMesh e = Some p -> phase (ghostState e) = attack ->
        distanceTo (lerp p (cam_position (camera f)) (dt f * 8))
                   (cam_position (camera f)) < 0.5 ->
        snd (updateEnemy f g e) = 1%nat).
Proof.
  split.
  - run_updateEnemy e; auto.
  - intros p0 Hm Hph Hd. apply Qltb_true in Hd.
    unfold updateEnemy, handleAttackPhase.
    destruct e as [m [ph sd wt rt st ex]]; cbn in *; subst. cbn.
    rewrite Hd. reflexivity.
Qed.

(** X2. With both doors closed a teleport roll changes nothing: in the dark a
    wandering ghost keeps wandering, whatever the draws. *)
Lemma teleport_requires_open_door (f : Frame) (g : GameState) (e : t) :
  leftOpen g = false -> rightOpen g = false -> flashlightOn g = false ->
  phase (ghostState e) = wander ->
  phase (ghostState (fst (updateEnemy f g e))) = wander.
Proof.
  intros Hl Hr Hf Hw. unfold updateEnemy, handleWanderPhase.
  destruct e as [[p|] [ph sd wt rt st ex]]; cbn in *; subst;
    [|reflexivity].
  cbn. rewrite Hf, Hl, Hr. cbn. repeat (case_cond; cbn); reflexivity.
Qed.

End WithExternals.

Lemma teleport_requires_open_door_witness :
  phase
    (ghostState
       (fst (updateEnemy (E := Approx.externals) (Samples.frame_ahead 2)
               (mkGameState true false false false false false false)
               (modelLoaded initial)))) = wander.
Proof.
  apply (teleport_requires_open_door (E := Approx.externals));
    reflexivity.
Defined.

(** The ghost of the sample session, just teleported to the left door. Lit
    for a second and a half it still stalks, and the next half second of
    light banishes it. Lit for one second and then not any more, it still
    stalks at 3.5 seconds with its exposure kept, and attacks in the frame
    that brings the stalk timer to 4. *)
Lemma exposure_to_banishment_witness :
  let e := Game.enemy (Samples.play Samples.to_stalk) in
  phase
    (ghostState
       (fst (updateEnemy (E := Approx.externals)
               (Samples.frame_at_left_door 0.5) Samples.lit_game
               (ticks (E := Approx.externals) (Samples.aimed 3) e))))
  = retreat
  /\ phase
       (ghostState
          (fst (updateEnemy (E := Approx.externals)
                  (Samples.frame_ahead 0.5) Samples.lit_game
                  (ticks (E := Approx.externals)
                     (Samples.aimed 2 ++ Samples.turned_away 5) e))))
     = attack.
Proof.
  intro e. split.
  - destruct (exposure_to_banishment (E := Approx.externals)
                (Samples.aimed 3) e (Samples.frame_at_left_door 0.5)
                Samples.lit_game) as (_ & _ & _ & _ & H & _).
    + discriminate.
    + reflexivity.
    + vm_compute. repeat split.
    + apply H; [vm_compute; reflexivity | vm_compute; discriminate].
  - destruct (exposure_to_banishment (E := Approx.externals)
                (Samples.aimed 2 ++ Samples.turned_away 5) e
                (Samples.frame_ahead 0.5) Samples.lit_game)
      as (_ & _ & _ & _ & _ & H & _).
    + discriminate.
    + reflexivity.
    + vm_compute. repeat split.
    + apply H; [vm_compute; discriminate | vm_compute; reflexivity].
Defined.

End EnemyFacts.

(** ** The session *)

Module GameFacts.
Import Game.

(** Runs the handlers other than the frame symbolically. *)
Ltac run_handlers w :=
  unfold onOverlayClick, restartGame, onPointerLockChange, onKeyDown, keyQ,
    keyE, triggerDoorBreak, onMouseDown, onMouseUp,
    Enemy.isGhostBlockingDoor, Enemy.onGhostHitByDoor, Enemy.resetEnemy,
    Enemy.modelLoaded;
  destruct w as [[pl lo ro lb rb go fo] fl [m [ph sd wt rt st ex]] n];
  cbn in *; repeat (case_cond; cbn in * ).

(** Neither the flags of the doors nor the ghost nor the flashlight change
    under [onGameOver]; each call is counted. *)
Lemma times_onGameOver (n : nat) : forall w,
  flashlightSystem (times n onGameOver w) = flashlightSystem w
  /\ enemy (times n onGameOver w) = enemy w
  /\ gameOverCalls (times n onGameOver w) = (n + gameOverCalls w)%nat
  /\ leftOpen (gameState (times n onGameOver w)) = leftOpen (gameState w)
  /\ rightOpen (gameState (times n onGameOver w)) = rightOpen (gameState w)
  /\ leftBroken (gameState (times n onGameOver w)) = leftBroken (gameState w)
  /\ rightBroken (gameState (times n onGameOver w))
     = rightBroken (gameState w)
  /\ isGameOver (gameState (times n onGameOver w))
     = (isGameOver (gameState w) || (0 <? n)%nat).
Proof.
  induction n as [|n IH]; intro w.
  - cbn. rewrite orb_false_r. repeat split.
  - cbn [times].
    destruct (IH (onGameOver w)) as (H1 & H2 & H3 & H4 & H5 & H6 & H7 & H8).
    rewrite H1, H2, H3, H4, H5, H6, H7, H8. cbn.
    rewrite orb_true_r. repeat split. lia.
Qed.

Section WithExternals.
Context {E : Externals}.

(** The parts of the state after a frame. [live] is the guard of the call
    of [updateEnemy]. *)
Lemma animate_parts (f : Frame) (w : World) :
  let fl := Flashlight.update (dt f) (flashlightSystem w) in
  let g := set_flashlightOn (Flashlight.isOn fl) (gameState w) in
  let live := isPlaying (gameState w) && negb (isGameOver (gameState w)) in
  let r := Enemy.updateEnemy f g (enemy w) in
  flashlightSystem (animate f w) = fl
  /\ enemy (animate f w) = (if live then fst r else enemy w)
  /\ gameOverCalls (animate f w)
     = (if live then (snd r + gameOverCalls w)%nat else gameOverCalls w)
  /\ leftOpen (gameState (animate f w)) = leftOpen (gameState w)
  /\ rightOpen (gameState (animate f w)) = rightOpen (gameState w)
  /\ leftBroken (gameState (animate f w)) = leftBroken (gameState w)
  /\ rightBroken (gameState (animate f w)) = rightBroken (gameState w)
  /\ isGameOver (gameState (animate f w))
     = (isGameOver (gameState w) || (live && (0 <? snd r)%nat)).
Proof.
  destruct w as [[pl lo ro lb rb go fo] fl0 e0 n0].
  cbn zeta. unfold animate. cbn [gameState flashlightSystem enemy
    gameOverCalls set_gameState set_flashlightSystem set_enemy
    set_flashlightOn isPlaying isGameOver leftOpen rightOpen leftBroken
    rightBroken].
  destruct (pl && negb go).
  - destruct (Enemy.updateEnemy f _ e0) as [e calls]. cbn [fst snd].
    match goal with
    | |- context [times calls onGameOver ?w0] =>
      destruct (times_onGameOver calls w0)
        as (H1 & H2 & H3 & H4 & H5 & H6 & H7 & H8)
    end.
    rewrite H1, H2, H3, H4, H5, H6, H7, H8. cbn. repeat split.
  - cbn. rewrite orb_false_r. repeat split.
Qed.

(** *** Doors *)

Lemma step_not_both_closed (ev : Event) (w : World) :
  not_both_closed w -> not_both_closed (step ev w).
Proof.
  unfold not_both_closed. destruct ev; cbn [step].
  7: { destruct (animate_parts f w) as (_ & _ & _ & Hl & Hr & _).
       rewrite Hl, Hr. auto. }
  all: try destruct code; run_handlers w; intros;
    subst; cbn in *; try reflexivity; try discriminate; auto;
    destruct lo, ro; cbn in *; try reflexivity; discriminate.
Qed.

Lemma run_not_both_closed (evs : list Event) : forall w,
  not_both_closed w -> not_both_closed (run evs w).
Proof.
  induction evs as [|ev evs IH]; intros w H; cbn; [exact H|].
  apply IH. now apply step_not_both_closed.
Qed.

(** Closing a door while the other one is closed opens the other one. *)
Lemma close_forces_other_open (d : Door) (w : World) :
  isPlaying (gameState w) = true -> isGameOver (gameState w) = false ->
  isOpen d (gameState w) = true -> isBroken d (gameState w) = false ->
  Enemy.isGhostBlockingDoor (side_of d) (enemy w) = false ->
  isOpen (other d) (gameState w) = false ->
  isOpen d (gameState (onKeyDown (key_of d) w)) = false
  /\ isOpen (other d) (gameState (onKeyDown (key_of d) w)) = true.
Proof.
  destruct d; cbn [isOpen isBroken other side_of key_of];
    intros Hp Hg Ho Hb Hgh Hc;
    unfold onKeyDown, keyQ, keyE; rewrite Hp, Hg, Hb, Ho, Hgh; cbn;
    destruct w as [[pl lo ro lb rb go fo] fl e n]; cbn in *; subst; cbn;
    split; reflexivity.
Qed.

(** C4. From the initial state, whatever happens -- key presses, frames,
    clicks, restarts -- the two doors are never both closed; and a key press
    that closes one door while the other is closed opens the other. *)
Theorem door_mutual_exclusion (evs : list Event) :
  let w := run evs initial in
  leftOpen (gameState w) || rightOpen (gameState w) = true
  /\ (forall d : Door,
        isPlaying (gameState w) = true -> isGameOver (gameState w) = false ->
        isOpen d (gameState w) = true -> isBroken d (gameState w) = false ->
        Enemy.isGhostBlockingDoor (side_of d) (enemy w) = false ->
        isOpen (other d) (gameState w) = false ->
        isOpen d (gameState (onKeyDown (key_of d) w)) = false
        /\ isOpen (other d) (gameState (onKeyDown (key_of d) w)) = true).
Proof.
  intro w. split.
  - apply (run_not_both_closed evs initial). reflexivity.
  - intro d. apply close_forces_other_open.
Qed.

(** *** Broken doors *)

Lemma triggerDoorBreak_broken_open (d : Door) (w : World) :
  broken_open d (triggerDoorBreak (side_of d) w).
Proof.
  destruct d; destruct w as [[pl lo ro lb rb go fo] fl e n]; split;
    reflexivity.
Qed.

Lemma step_broken_open (d : Door) (ev : Event) (w : World) :
  restarts ev w = false -> broken_open d w -> broken_open d (step ev w).
Proof.
  unfold broken_open. destruct ev; cbn [step restarts].
  7: { destruct (animate_parts f w) as (_ & _ & _ & Hl & Hr & Hlb & Hrb & _).
       destruct d; cbn [isOpen isBroken]; rewrite ?Hl, ?Hr, ?Hlb, ?Hrb;
         auto. }
  all: try destruct code; destruct d; run_handlers w; intros Hre [Hb Ho];
    subst; cbn in *; try discriminate; split; reflexivity.
Qed.

Lemma run_broken_open (d : Door) (evs : list Event) : forall w,
  same_session evs w -> broken_open d w -> broken_open d (run evs w).
Proof.
  induction evs as [|ev evs IH]; intros w Hs H; cbn; [exact H|].
  destruct Hs as [Hre Hs]. apply IH; [exact Hs|].
  now apply step_broken_open.
Qed.

(** The key of a broken door does nothing. *)
Lemma broken_key_noop (d : Door) (w : World) :
  isBroken d (gameState w) = true -> onKeyDown (key_of d) w = w.
Proof.
  destruct d; cbn [isBroken key_of]; intro Hb; unfold onKeyDown, keyQ, keyE;
    rewrite Hb; destruct (_ || _); reflexivity.
Qed.

(** C5. After [triggerDoorBreak] on a door, and for as long as the game is
    not restarted, that door stays broken and open, and its key changes
    nothing in the state. *)
Theorem broken_door_permanence (d : Door) (w : World) (evs : list Event) :
  let w0 := triggerDoorBreak (side_of d) w in
  same_session evs w0 ->
  isBroken d (gameState (run evs w0)) = true
  /\ isOpen d (gameState (run evs w0)) = true
  /\ onKeyDown (key_of d) (run evs w0) = run evs w0.
Proof.
  intros w0 Hs.
  destruct (run_broken_open d evs w0 Hs (triggerDoorBreak_broken_open d w))
    as [Hb Ho].
  repeat split; try assumption. now apply broken_key_noop.
Qed.

(** *** Game over *)

(** Once the game is over, nothing short of a restart runs [onGameOver]
    again or clears the flag. *)
Lemma step_game_over (ev : Event) (w : World) :
  restarts ev w = false -> isGameOver (gameState w) = true ->
  isGameOver (gameState (step ev w)) = true
  /\ gameOverCalls (step ev w) = gameOverCalls w.
Proof.
  destruct ev; cbn [step restarts].
  7: { intros _ Hgo.
       destruct (animate_parts f w) as (_ & _ & Hc & _ & _ & _ & _ & Hg).
       rewrite Hc, Hg, Hgo, andb_false_r. split; reflexivity. }
  all: try destruct code; run_handlers w; intros; subst;
    try discriminate; split; reflexivity.
Qed.

Lemma run_game_over (evs : list Event) : forall w,
  same_session evs w -> isGameOver (gameState w) = true ->
  isGameOver (gameState (run evs w)) = true
  /\ gameOverCalls (run evs w) = gameOverCalls w.
Proof.
  induction evs as [|ev evs IH]; intros w Hs Hgo; cbn; [split; auto|].
  destruct Hs as [Hre Hs].
  destruct (step_game_over ev w Hre Hgo) as [Hgo' Hc].
  destruct (IH (step ev w) Hs Hgo') as [Hgo'' Hc'].
  split; [exact Hgo'' | congruence].
Qed.

(** No frame runs [onGameOver] twice. *)
Lemma animate_calls_le (f : Frame) (w : World) :
  (gameOverCalls (animate f w) <= S (gameOverCalls w))%nat.
Proof.
  destruct (animate_parts f w) as (_ & _ & Hc & _). rewrite Hc.
  destruct (_ && _); [|lia].
  pose proof (proj1 (EnemyFacts.updateEnemy_calls f
    (set_flashlightOn
       (Flashlight.isOn (Flashlight.update (dt f) (flashlightSystem w)))
       (gameState w)) (enemy w))).
  lia.
Qed.

(** C3. A running game, the ghost attacking: in the frame that brings it
    closer than 0.5 to the camera, [onGameOver] runs exactly once and the
    game is over; and whatever follows in the same session -- frames, keys,
    pointer lock, clicks that do not restart -- it does not run again. *)
Theorem game_over_fires_once (f : Frame) (w : World) (p : Vec3)
    (evs : list Event) :
  isPlaying (gameState w) = true -> isGameOver (gameState w) = false ->
  Enemy.ghostMesh (enemy w) = Some p -> Enemy.phase (ghost w) = Enemy.attack ->
  distanceTo (lerp p (cam_position (camera f)) (dt f * 8))
             (cam_position (camera f)) < 0.5 ->
  same_session evs (animate f w) ->
  gameOverCalls (animate f w) = S (gameOverCalls w)
  /\ isGameOver (gameState (animate f w)) = true
  /\ gameOverCalls (run evs (animate f w)) = S (gameOverCalls w).
Proof.
  intros Hp Hg Hm Hph Hd Hs.
  destruct (animate_parts f w) as (_ & _ & Hc & _ & _ & _ & _ & Hgo).
  rewrite Hp, Hg in Hc, Hgo. cbn [andb negb orb] in Hc, Hgo.
  rewrite (proj2 (EnemyFacts.updateEnemy_calls f _ (enemy w)) p Hm Hph Hd)
    in Hc, Hgo.
  cbn in Hc, Hgo.
  destruct (run_game_over evs (animate f w) Hs Hgo) as [_ Hc'].
  repeat split; congruence.
Qed.

(** *** Restart *)

(** C2, as the code has it. After [restartGame] both doors are open and
    unbroken, the game is not over, the battery is at 6, the flashlight is
    off and not depleted, the ghost wanders with both stalk timers at 0;
    the usage timer of the flashlight keeps its value. *)
Theorem restart_resets (w : World) :
  let w' := restartGame w in
  leftOpen (gameState w') = true /\ rightOpen (gameState w') = true
  /\ leftBroken (gameState w') = false /\ rightBroken (gameState w') = false
  /\ isGameOver (gameState w') = false
  /\ Flashlight.battery (flashlightSystem w') = 6
  /\ Flashlight.isOn (flashlightSystem w') = false
  /\ Flashlight.isDepleted (flashlightSystem w') = false
  /\ Enemy.phase (ghost w') = Enemy.wander
  /\ Enemy.stalkTimer (ghost w') = 0
  /\ Enemy.exposureTimer (ghost w') = 0
  /\ Flashlight.usageTimer (flashlightSystem w')
     = Flashlight.usageTimer (flashlightSystem w).
Proof.
  unfold restartGame, Flashlight.toggle, Flashlight.turnOffVisuals, ghost.
  destruct w as [[pl lo ro lb rb go fo] [on dep b u r bx li] e n].
  destruct on; cbn; repeat split.
Qed.

End WithExternals.

(** The game ends with the light on for 0.3 seconds; the click that restarts
    it leaves the usage timer at 0.3, not at the 0 of a new flashlight. *)
Lemma restart_keeps_usageTimer :
  isGameOver (gameState (Samples.play Samples.game_over_trace)) = true
  /\ ~ Flashlight.usageTimer
         (flashlightSystem
            (Samples.play (Samples.game_over_trace ++ [OverlayClick])))
       == Flashlight.usageTimer Flashlight.constructed.
Proof.
  split; vm_compute; [reflexivity | discriminate].
Qed.

(** *** The stalk timers over a session *)

Section StalkTimers.
Context {E : Externals}.

Lemma step_stalk_ok (ev : Event) (w : World) :
  event_ok ev -> Enemy.stalk_ok (ghost w) ->
  Enemy.stalk_ok (ghost (step ev w)).
Proof.
  unfold ghost. destruct ev; cbn [step event_ok].
  7: { intros Hdt H. destruct (animate_parts f w) as (_ & He & _).
       rewrite He. destruct (_ && _); [|exact H].
       now apply EnemyFacts.updateEnemy_stalk_ok. }
  all: try destruct code; unfold Enemy.stalk_ok; run_handlers w;
    intros; subst; try discriminate; auto.
Qed.

Lemma run_stalk_ok (evs : list Event) : forall w,
  Forall event_ok evs -> Enemy.stalk_ok (ghost w) ->
  Enemy.stalk_ok (ghost (run evs w)).
Proof.
  induction evs as [|ev evs IH]; intros w Hok H; cbn; [exact H|].
  inversion Hok; subst. apply IH; [assumption|].
  now apply step_stalk_ok.
Qed.

(** Whatever the event, the ghost enters the stalk phase with both timers
    at 0. *)
Lemma step_entry (ev : Event) (w : World) :
  Enemy.phase (ghost w) <> Enemy.stalk ->
  Enemy.phase (ghost (step ev w)) = Enemy.stalk ->
  Enemy.timers_zero (ghost (step ev w)).
Proof.
  unfold ghost. destruct ev; cbn [step].
  7: { intros Hne. destruct (animate_parts f w) as (_ & He & _).
       rewrite He. destruct (_ && _); [|congruence].
       intro Hst. now apply EnemyFacts.updateEnemy_entry. }
  all: try destruct code; unfold Enemy.timers_zero; run_handlers w;
    intros; subst; try discriminate; try contradiction; try congruence;
    split; reflexivity.
Qed.

(** A frame that takes the ghost out of the stalk phase leaves the timer
    that caused the exit at or above its threshold. *)
Lemma animate_exit (f : Frame) (w : World) :
  Enemy.phase (ghost w) = Enemy.stalk ->
  (Enemy.phase (ghost (animate f w)) = Enemy.retreat ->
   2 <= Enemy.exposureTimer (ghost (animate f w)))
  /\ (Enemy.phase (ghost (animate f w)) = Enemy.attack ->
      4 <= Enemy.stalkTimer (ghost (animate f w))).
Proof.
  unfold ghost. intro Hst. destruct (animate_parts f w) as (_ & He & _).
  rewrite He. destruct (_ && _).
  - now apply EnemyFacts.updateEnemy_exit.
  - rewrite Hst. split; discriminate.
Qed.

(** C1, as the code has it. Both stalk timers are put to 0 on every entry
    to the stalk phase and by the door hit; the banishment exit and the
    timeout exit leave them where they are (the exposure at 2 or more, the
    stalk time at 4 or more). So in every state a session reaches with the
    ghost in the stalk phase, the timers count the current stalk:
    [0 <= exposureTimer <= stalkTimer < 4] and [exposureTimer < 2]. *)
Theorem stalk_timers (evs : list Event) :
  Forall event_ok evs ->
  let w := run evs initial in
  (Enemy.phase (ghost w) = Enemy.stalk ->
   0 <= Enemy.exposureTimer (ghost w)
   /\ Enemy.exposureTimer (ghost w) <= Enemy.stalkTimer (ghost w)
   /\ Enemy.stalkTimer (ghost w) < 4
   /\ Enemy.exposureTimer (ghost w) < 2)
  /\ (forall ev,
        Enemy.phase (ghost w) <> Enemy.stalk ->
        Enemy.phase (ghost (step ev w)) = Enemy.stalk ->
        Enemy.stalkTimer (ghost (step ev w)) = 0
        /\ Enemy.exposureTimer (ghost (step ev w)) = 0)
  /\ (forall side,
        Enemy.phase (ghost (triggerDoorBreak side w)) = Enemy.retreat
        /\ Enemy.stalkTimer (ghost (triggerDoorBreak side w)) = 0
        /\ Enemy.exposureTimer (ghost (triggerDoorBreak side w)) = 0)
  /\ (forall f,
        Enemy.phase (ghost w) = Enemy.stalk ->
        (Enemy.phase (ghost (animate f w)) = Enemy.retreat ->
         2 <= Enemy.exposureTimer (ghost (animate f w)))
        /\ (Enemy.phase (ghost (animate f w)) = Enemy.attack ->
            4 <= Enemy.stalkTimer (ghost (animate f w)))).
Proof.
  intros Hok w. split; [|split; [|split]].
  - intro Hst.
    assert (H : Enemy.stalk_ok (ghost w))
      by (apply run_stalk_ok; [exact Hok | intro Hi; discriminate Hi]).
    exact (H Hst).
  - intros ev Hne Hst. now apply step_entry.
  - intro side. destruct side; repeat split.
  - intros f Hst. now apply animate_exit.
Qed.

End StalkTimers.

(** The ghost, lit for two seconds at the left door, retreats with its
    exposure timer at 2 and its stalk timer at 2: outside the stalk phase,
    and not 0. *)
Lemma banished_keeps_timers :
  Enemy.phase (ghost (Samples.play Samples.banish_trace)) = Enemy.retreat
  /\ ~ Enemy.exposureTimer (ghost (Samples.play Samples.banish_trace)) == 0
  /\ ~ Enemy.stalkTimer (ghost (Samples.play Samples.banish_trace)) == 0.
Proof.
  repeat split; vm_compute; try reflexivity; discriminate.
Qed.

Lemma sample_events_ok (evs : list Event) :
  forallb (fun ev => match ev with
                     | AnimationFrame f => 0 <=? dt f
                     | _ => true
                     end) evs = true ->
  Forall event_ok evs.
Proof.
  induction evs as [|ev evs IH]; cbn; intro H; constructor.
  - destruct ev; cbn; auto. apply andb_true_iff in H. destruct H as [H _].
    now apply Qleb_true.
  - apply IH. apply andb_true_iff in H. tauto.
Qed.

Lemma stalk_timers_witness :
  Enemy.stalkTimer
    (ghost (Samples.play (Samples.to_stalk
                          ++ Samples.frames 3 (Samples.frame_ahead 0.5))))
  < 4.
Proof.
  apply (stalk_timers (E := Approx.externals)
           (Samples.to_stalk ++ Samples.frames 3 (Samples.frame_ahead 0.5))).
  - apply sample_events_ok. vm_compute. reflexivity.
  - vm_compute. reflexivity.
Defined.

(** The game-over frame of the sample session, and what follows it: the
    pointer lock comes back, frames pass, keys and buttons are pressed. *)
Lemma game_over_fires_once_witness :
  let w := Samples.play (Samples.to_attack ++ Samples.click_flashlight
                         ++ Samples.frames 2 (Samples.frame_ahead 0.1)) in
  let after := [PointerLockChange true;
                AnimationFrame (Samples.frame_ahead 0.1);
                KeyDown KeyQ; MouseDown; MouseUp;
                AnimationFrame (Samples.frame_ahead 0.5)] in
  gameOverCalls (animate (E := Approx.externals) (Samples.frame_ahead 0.1) w)
  = 1%nat
  /\ isGameOver
       (gameState
          (animate (E := Approx.externals) (Samples.frame_ahead 0.1) w))
     = true
  /\ gameOverCalls
       (run (E := Approx.externals) after
          (animate (E := Approx.externals) (Samples.frame_ahead 0.1) w))
     = 1%nat.
Proof.
  intros w after.
  apply (game_over_fires_once (E := Approx.externals)
           (Samples.frame_ahead 0.1) w
           (Samples.mesh_position w) after).
  - vm_compute. reflexivity.
  - vm_compute. reflexivity.
  - vm_compute. reflexivity.
  - vm_compute. reflexivity.
  - vm_compute. reflexivity.
  - vm_compute. repeat split.
Defined.

(** The right door is closed, then the left one: the right one opens. *)
Lemma door_mutual_exclusion_witness :
  let w := Samples.play [PointerLockChange true; KeyDown KeyE] in
  rightOpen (gameState w) = false
  /\ leftOpen (gameState (onKeyDown KeyQ w)) = false
  /\ rightOpen (gameState (onKeyDown KeyQ w)) = true.
Proof.
  intro w. split; [reflexivity|].
  apply (proj2 (door_mutual_exclusion (E := Approx.externals)
                  [PointerLockChange true; KeyDown KeyE]) LeftDoor);
    reflexivity.
Defined.

(** The player shuts the left door on the stalking ghost; later presses of
    Q, and of E, leave the left door broken and open. *)
Lemma broken_door_permanence_witness :
  let w := Samples.play Samples.to_stalk in
  let after := [KeyDown KeyQ; KeyDown KeyE; OverlayClick;
                AnimationFrame (Samples.frame_ahead 0.5); KeyDown KeyQ] in
  onKeyDown KeyQ w = triggerDoorBreak side_left w
  /\ isBroken LeftDoor
       (gameState (run (E := Approx.externals) after
                     (triggerDoorBreak side_left w))) = true
  /\ isOpen LeftDoor
       (gameState (run (E := Approx.externals) after
                     (triggerDoorBreak side_left w))) = true.
Proof.
  intros w after. split; [vm_compute; reflexivity|].
  destruct (broken_door_permanence (E := Approx.externals) LeftDoor w after)
    as (Hb & Ho & _).
  - vm_compute. repeat split.
  - split; assumption.
Defined.

(** [restartGame] does not touch the recharge timer either. After a restart
    in the middle of a recharge delay the next depletion starts with the
    time already waited: here 0.3 seconds, so 4.7 more seconds end it. *)
Lemma restart_keeps_rechargeTimer (w : World) :
  Flashlight.rechargeTimer (flashlightSystem (restartGame w))
  = Flashlight.rechargeTimer (flashlightSystem w).
Proof.
  unfold restartGame, Flashlight.toggle, Flashlight.turnOffVisuals.
  destruct w as [[pl lo ro lb rb go fo] [on dep b u r bx li] e n].
  destruct on; reflexivity.
Qed.

Lemma early_recovery_after_restart :
  Flashlight.isDepleted
    (flashlightSystem (Samples.play Samples.depleted_again)) = true
  /\ Flashlight.isDepleted
       (flashlightSystem
          (Samples.play (Samples.depleted_again
                         ++ Samples.frames 1 (Samples.frame_ahead 4.7))))
     = false.
Proof.
  split; vm_compute; reflexivity.
Qed.

(** C9. What the code does where the claim fails. The battery is emptied
    while the ghost attacks and the game ends; after one second on the
    game-over screen the recharge timer is at 1. [restartGame] clears
    [isDepleted], refills the battery and leaves [rechargeTimer] at 1. In
    the new session the player takes the battery down to one unit and the
    next click depletes the flashlight, the recharge timer still at 1. A
    single update of 4.25 seconds -- less than the 5 seconds of the delay --
    ends the depletion with the battery at 1.1. *)
Lemma recharge_carried_over_restart :
  let ended :=
    Samples.play (Samples.to_attack ++ Samples.releases 11
                  ++ Samples.frames 8 (Samples.frame_ahead 0.125)) in
  let restarted := Samples.play Samples.restarted_in_recharge in
  let depleted := onMouseUp restarted in
  let late := animate (E := Approx.externals) (Samples.frame_ahead 4.25)
                depleted in
  (isGameOver (gameState ended) = true
   /\ Flashlight.isDepleted (flashlightSystem ended) = true
   /\ Flashlight.rechargeTimer (flashlightSystem ended) == 1)
  /\ (isPlaying (gameState restarted) = true
      /\ Flashlight.isDepleted (flashlightSystem restarted) = false
      /\ Flashlight.battery (flashlightSystem restarted) == 1
      /\ Flashlight.rechargeTimer (flashlightSystem restarted) == 1)
  /\ (Flashlight.isDepleted (flashlightSystem depleted) = true
      /\ Flashlight.battery (flashlightSystem depleted) = 0
      /\ Flashlight.rechargeTimer (flashlightSystem depleted) == 1)
  /\ (Flashlight.isDepleted (flashlightSystem late) = false
      /\ Flashlight.battery (flashlightSystem late) = 1.1
      /\ Flashlight.rechargeTimer (flashlightSystem late) = 0).
Proof.
  repeat split; vm_compute; reflexivity.
Qed.

End GameFacts.

(** ** More on the flashlight *)

Module FlashlightUse.
Import Flashlight.
Import FlashlightFacts.

(** X4. One call of [update] takes at most one unit from a lit flashlight,
    however long the frame was, and never adds to it. *)
Theorem update_drains_at_most_one (dt : Q) (f : t) :
  isOn f = true -> isDepleted f = false -> 0 <= battery f ->
  battery f - 1 <= battery (update dt f)
  /\ battery (update dt f) <= battery f.
Proof.
  intros Hon Hdep Hb.
  unfold update, consumeBatteryStep, triggerDepletion, turnOffVisuals.
  by_cases f.
Qed.

Lemma update_drains_at_most_one_witness :
  battery (toggle constructed) - 1 <= battery (update 30 (toggle constructed))
  /\ battery (update 30 (toggle constructed)) <= battery (toggle constructed).
Proof.
  apply (update_drains_at_most_one 30 (toggle constructed));
    [reflexivity | reflexivity | vm_compute; discriminate].
Defined.

(** X6. Turning the light on with more than one unit left takes a unit at once
    and starts the drain period afresh; turning it off right away gives
    nothing back: a click on and off costs one unit. *)
Theorem click_costs_one_unit (f : t) :
  isOn f = false -> 1 < battery f ->
  isOn (toggle f) = true
  /\ battery (toggle f) = battery f - 1
  /\ usageTimer (toggle f) = 0
  /\ lightIntensity (toggle f) = 150
  /\ isOn (toggle (toggle f)) = false
  /\ battery (toggle (toggle f)) = battery f - 1
  /\ lightIntensity (toggle (toggle f)) = 0.
Proof.
  intros Hoff Hb.
  assert (H1 : (battery f <? 1) = false) by (qprop; lra).
  assert (H2 : (battery f - 1 <=? 0) = false) by (qprop; lra).
  unfold toggle, consumeBatteryStep, triggerDepletion, turnOffVisuals.
  destruct f as [on dep b u r bx li]; cbn in *; subst.
  rewrite H1. cbn. rewrite H2. cbn. repeat split.
Qed.

Lemma click_costs_one_unit_witness :
  battery (toggle (toggle constructed)) = 6 - 1.
Proof.
  apply (click_costs_one_unit constructed);
    [reflexivity | vm_compute; reflexivity].
Defined.

(** *** What the recovered charge buys *)

Lemma update_on_last_charge (d : Q) (f : t) :
  on_last_charge f -> on_last_charge (update d f).
Proof.
  unfold on_last_charge, update, consumeBatteryStep, triggerDepletion,
    turnOffVisuals.
  destruct f as [on dep b u r bx li]; cbn in *. intro H.
  destruct on; cbn in *.
  - destruct (H eq_refl) as [Hd Hb]. subst. cbn.
    repeat (case_cond; cbn in * ); intros; try discriminate; auto.
  - repeat (case_cond; cbn in * ); intros; discriminate.
Qed.

Lemma updates_on_last_charge (dts : list Q) : forall f,
  on_last_charge f -> on_last_charge (updates dts f).
Proof.
  induction dts as [|d dts IH]; intros f H; [exact H|].
  change (updates (d :: dts) f) with (updates dts (update d f)).
  apply IH. now apply update_on_last_charge.
Qed.

(** The update of a lit flashlight that does not complete a drain period. *)
Lemma update_keeps_lit (d : Q) (f : t) :
  isOn f = true -> isDepleted f = false -> usageTimer f + d < drainRate ->
  isOn (update d f) = true /\ battery (update d f) = battery f.
Proof.
  intros Hon Hdep Hu.
  assert (H1 : (drainRate <=? usageTimer f + d) = false) by (qprop; exact Hu).
  unfold update. destruct f as [on dep b u r bx li]; cbn in *; subst. cbn.
  rewrite H1. split; reflexivity.
Qed.

(** The update that completes a drain period on the last unit. *)
Lemma update_last_unit (d : Q) (f : t) :
  isOn f = true -> isDepleted f = false ->
  drainRate <= usageTimer f + d -> battery f - 1 <= 0 ->
  isDepleted (update d f) = true /\ isOn (update d f) = false
  /\ battery (update d f) = 0.
Proof.
  intros Hon Hdep Hu Hb.
  assert (H1 : (drainRate <=? usageTimer f + d) = true) by (qprop; exact Hu).
  assert (H2 : (battery f - 1 <=? 0) = true) by (qprop; exact Hb).
  unfold update, consumeBatteryStep, triggerDepletion, turnOffVisuals.
  destruct f as [on dep b u r bx li]; cbn in *; subst. cbn.
  rewrite H1. cbn. rewrite H2. cbn. repeat split.
Qed.

(** X8. The 1.1 units a recovery gives are enough to turn the light on at
    once, with [1.1 - 1] units left. However the time is then cut into
    updates, a flashlight that is still on holds exactly that; an update
    that leaves the usage timer below 3 keeps it on, and the update that
    brings the usage timer to 3 depletes it again. *)
Theorem recovered_charge (f : t) (dt : Q) (dts : list Q) :
  isDepleted f = true -> 5 <= rechargeTimer f + dt ->
  let f1 := toggle (update dt f) in
  let f2 := updates dts f1 in
  isOn f1 = true /\ isDepleted f1 = false
  /\ battery f1 = 1.1 - 1 /\ usageTimer f1 = 0
  /\ (isOn f2 = true ->
      isDepleted f2 = false /\ battery f2 = 1.1 - 1
      /\ (forall d, usageTimer f2 + d < 3 ->
                    isOn (update d f2) = true
                    /\ battery (update d f2) = 1.1 - 1)
      /\ (forall d, 3 <= usageTimer f2 + d ->
                    isDepleted (update d f2) = true
                    /\ isOn (update d f2) = false
                    /\ battery (update d f2) = 0)).
Proof.
  intros Hdep Hge f1 f2.
  destruct (update_recovers dt f Hdep) as (Hb & Hdep' & _).
  { unfold rechargeDelay. exact Hge. }
  assert (Hon' : isOn (update dt f) = false).
  { unfold update, turnOffVisuals. destruct f as [on dep b u r bx li].
    cbn in *. subst. cbn. case_cond; reflexivity. }
  assert (H1 : isOn f1 = true /\ isDepleted f1 = false
               /\ battery f1 = 1.1 - 1 /\ usageTimer f1 = 0).
  { unfold f1, toggle, consumeBatteryStep.
    destruct (update dt f) as [on dep b u r bx li]; cbn in *; subst.
    cbn. repeat split. }
  destruct H1 as (Hon1 & Hdep1 & Hb1 & Hu1).
  repeat (split; [assumption|]).
  intro Hon2.
  assert (Hc : on_last_charge f2).
  { apply updates_on_last_charge. intros _. split; assumption. }
  destruct (Hc Hon2) as [Hdep2 Hb2].
  repeat (split; [assumption|]). split.
  - intros d Hd. rewrite <- Hb2. apply update_keeps_lit; assumption.
  - intros d Hd. apply update_last_unit; try assumption.
    rewrite Hb2. lra.
Qed.

Lemma recovered_charge_witness :
  let f1 := toggle (update 4 Samples.depleted_flashlight) in
  let f2 := updates [1; 1.5] f1 in
  isOn f2 = true
  /\ isOn (update 0.25 f2) = true
  /\ isDepleted (update 0.5 f2) = true.
Proof.
  intros f1 f2.
  destruct (recovered_charge Samples.depleted_flashlight 4 [1; 1.5])
    as (_ & _ & _ & _ & H).
  - reflexivity.
  - vm_compute. discriminate.
  - destruct (H eq_refl) as (_ & _ & Hk & Hd).
    split; [reflexivity|]. split.
    + apply Hk. vm_compute. reflexivity.
    + apply Hd. vm_compute. discriminate.
Defined.

End FlashlightUse.

(** ** The battery display *)

Module DisplayFacts.
Import Display.

Lemma ceiling_in_range (b : Q) :
  0 <= b -> b <= 6 -> (0 <= Qceiling b <= 6)%Z.
Proof.
  intros H0 H6. split.
  - change 0%Z with (Qceiling 0). now apply Qceiling_resp_le.
  - change 6%Z with (Qceiling 6). now apply Qceiling_resp_le.
Qed.

Section WithExternals.
Context {E : Externals}.

(** X9. The display of a flashlight that is not depleted, with the battery
    within its bounds: the number of lit bars is the battery level rounded
    up; they are the first ones; and they are all red when at most one is
    lit, all green otherwise. *)
Theorem lit_bars_count (now : Q) (f : Flashlight.t) :
  Flashlight.isDepleted f = false ->
  0 <= Flashlight.battery f -> Flashlight.battery f <= 6 ->
  let k := Qceiling (Flashlight.battery f) in
  Z.of_nat (litBars (updateDisplay now f)) = k
  /\ updateDisplay now f
     = repeat (if (k <=? 1)%Z then warning else active) (Z.to_nat k)
       ++ repeat inactive (6 - Z.to_nat k).
Proof.
  intros Hdep H0 H6 k.
  pose proof (ceiling_in_range _ H0 H6) as Hk. fold k in Hk.
  unfold updateDisplay, barColor, litBars. fold k. rewrite Hdep.
  assert (Hc : (k = 0 \/ k = 1 \/ k = 2 \/ k = 3 \/ k = 4 \/ k = 5
               \/ k = 6)%Z) by lia.
  destruct Hc as [Hc|[Hc|[Hc|[Hc|[Hc|[Hc|Hc]]]]]]; rewrite Hc;
    split; reflexivity.
Qed.

(** X10. The display of a depleted flashlight: whenever a flashlight used from
    its constructor on is depleted, the first bar flashes between red and
    black and the other five are dark. *)
Theorem depleted_display (now : Q) (ops : list Flashlight.op) :
  let f := Flashlight.run ops Flashlight.constructed in
  Flashlight.isDepleted f = true ->
  updateDisplay now f
  = (if 0 <? Math_sin (now * 0.01) then flash_on else flash_off)
    :: repeat inactive 5.
Proof.
  intros f Hdep.
  assert (H : Flashlight.depleted_off f).
  { apply FlashlightFacts.run_depleted_off. intro Hc. discriminate Hc. }
  destruct (H Hdep) as [_ Hb].
  unfold updateDisplay, barColor. rewrite Hdep, Hb. reflexivity.
Qed.

End WithExternals.

Lemma lit_bars_count_witness :
  Z.of_nat (litBars (updateDisplay (E := Approx.externals) 0
                       Samples.low_flashlight)) = 1%Z
  /\ updateDisplay (E := Approx.externals) 0 Samples.low_flashlight
     = [warning; inactive; inactive; inactive; inactive; inactive].
Proof.
  apply (lit_bars_count (E := Approx.externals) 0 Samples.low_flashlight);
    [reflexivity | vm_compute; discriminate | vm_compute; discriminate].
Defined.

Lemma depleted_display_witness :
  updateDisplay (E := Approx.externals) 100
    (Flashlight.run (Samples.drain_to_one ++ [Flashlight.ReleaseButton])
       Flashlight.constructed)
  = [flash_on; inactive; inactive; inactive; inactive; inactive].
Proof.
  apply (depleted_display (E := Approx.externals) 100
           (Samples.drain_to_one ++ [Flashlight.ReleaseButton])).
  reflexivity.
Defined.

End DisplayFacts.

(** ** The mouse look *)

Module LookFacts.
Import Look.

Lemma apply_move_pitch_ok (m : move) (r : t) :
  pitch_ok r -> pitch_ok (apply_move m r).
Proof.
  unfold pitch_ok. destruct m as [p dx dy|]; cbn.
  - unfold onMouseMove, Math_max, Math_min. intros [H1 H2].
    destruct p; cbn; [|split; assumption].
    repeat (case_cond; cbn); qprop; split; lra.
  - intros _. split; lra.
Qed.

(** X11. The pitch of the camera never leaves the interval from -1 to 1 radian,
    whatever the mouse does, playing or not, and through restarts. *)
Theorem pitch_clamped (ms : list move) :
  -1 <= rx (run ms reset) /\ rx (run ms reset) <= 1.
Proof.
  assert (H : forall r, pitch_ok r -> pitch_ok (run ms r)).
  { induction ms as [|m ms IH]; intros r Hr; cbn; [exact Hr|].
    apply IH. now apply apply_move_pitch_ok. }
  apply H. unfold pitch_ok, reset; cbn. lra.
Qed.

(** A handled move turns the camera by 0.002 radian per pixel: the yaw
    without bound, the pitch up to the clamp. *)
Theorem mouse_move_turns (dx dy : Q) (r : t) :
  ry (onMouseMove true dx dy r) == ry r - 0.002 * dx
  /\ (-1 <= rx r - 0.002 * dy -> rx r - 0.002 * dy <= 1 ->
      rx (onMouseMove true dx dy r) == rx r - 0.002 * dy)
  /\ (1 <= rx r - 0.002 * dy -> rx (onMouseMove true dx dy r) == 1)
  /\ (rx r - 0.002 * dy <= -1 -> rx (onMouseMove true dx dy r) == -1)
  /\ onMouseMove false dx dy r = r.
Proof.
  unfold onMouseMove, Math_max, Math_min. cbn.
  repeat split; intros; repeat (case_cond; cbn); qprop; lra.
Qed.

End LookFacts.

(** ** More on the ghost *)

Module EnemyMoves.
Import Enemy.

(** Runs [updateEnemy] symbolically through every branch. *)
Ltac walk_updateEnemy e :=
  unfold updateEnemy, handleWanderPhase, handleApproachPhase,
    handleStalkPhase, handleAttackPhase, handleRetreatPhase,
    triggerNormalAttack, teleportToDoor;
  destruct e as [[p|] [ph sd wt rt st ex]]; cbn in *;
  [destruct ph; cbn in *; repeat (case_cond; cbn in * ) | ].

(** A draw from 0 up to, not including, 1, scaled by a length and rounded
    down, is an index of the array. *)
Lemma floor_draw (r : Q) (n : nat) :
  0 <= r -> r < 1 -> (0 < n)%nat ->
  (0 <= Qfloor (r * inject_Z (Z.of_nat n)) < Z.of_nat n)%Z.
Proof.
  intros H0 H1 Hn.
  assert (Hq : 0 < inject_Z (Z.of_nat n)).
  { change 0 with (inject_Z 0). rewrite <- Zlt_Qlt. lia. }
  split.
  - change 0%Z with (Qfloor 0). apply Qfloor_resp_le. nra.
  - rewrite Zlt_Qlt.
    apply Qle_lt_trans with (r * inject_Z (Z.of_nat n)).
    + apply Qfloor_le.
    + nra.
Qed.

(** The door the teleport roll picks is one of the open doors. *)
Lemma chosen_side_open (lo ro : bool) (r : Q) :
  0 <= r -> r < 1 ->
  let l := (if lo then [side_left] else [])
           ++ (if ro then [side_right] else []) in
  (0 <? length l)%nat = true ->
  let c := array_get l (Qfloor (r * inject_Z (Z.of_nat (length l)))) in
  (c = side_left /\ lo = true) \/ (c = side_right /\ ro = true).
Proof.
  intros H0 H1 l Hl c.
  assert (Hn : (0 < length l)%nat) by (apply Nat.ltb_lt; exact Hl).
  pose proof (floor_draw r (length l) H0 H1 Hn) as Hi.
  unfold c, array_get.
  remember (Qfloor (r * inject_Z (Z.of_nat (length l)))) as i eqn:Hq in *.
  clear Hq.
  destruct (i <? 0)%Z eqn:Hneg; [apply Z.ltb_lt in Hneg; lia|].
  unfold l in *. destruct lo, ro; cbn in *; try lia.
  - assert (Hc : (i = 0 \/ i = 1)%Z) by lia.
    destruct Hc as [Hc|Hc]; rewrite Hc; cbn; auto.
  - assert (Hc : i = 0%Z) by lia. rewrite Hc. cbn. auto.
  - assert (Hc : i = 0%Z) by lia. rewrite Hc. cbn. auto.
Qed.

Section WithExternals.
Context {E : Externals}.

(** X12. One call of [updateEnemy] changes the phase only along the arrows of the
    state machine: wander to approach or stalk, approach and stalk to attack
    or retreat, retreat to wander; the attack phase is never left. *)
Theorem phase_transitions (f : Frame) (g : GameState) (e : t) :
  may_follow (phase (ghostState e))
             (phase (ghostState (fst (updateEnemy f g e)))) = true.
Proof.
  walk_updateEnemy e; try reflexivity. destruct ph; reflexivity.
Qed.

(** The attack handler never assigns the phase. *)
Lemma updateEnemy_attack (f : Frame) (g : GameState) (e : t) :
  phase (ghostState e) = attack ->
  phase (ghostState (fst (updateEnemy f g e))) = attack.
Proof.
  intro Ha. walk_updateEnemy e; try discriminate; try reflexivity.
  exact Ha.
Qed.

(** The open doors, as [handleWanderPhase] collects them. *)
Lemma wander_dark_outcome (f : Frame) (g : GameState) (p : Vec3)
    (s : GhostState) :
  flashlightOn g = false ->
  let l := (if leftOpen g then [side_left] else [])
           ++ (if rightOpen g then [side_right] else []) in
  let r := handleWanderPhase f g (p, s) in
  (phase (snd r) = phase s /\ attackSide (snd r) = attackSide s)
  \/ (exists gh,
        (0 <? length l)%nat = true
        /\ r = teleportToDoor
                 (array_get l (Qfloor (random f 1
                                       * inject_Z (Z.of_nat (length l)))))
                 gh).
Proof.
  intros Hf l r. unfold r, handleWanderPhase. rewrite Hf.
  cbv beta iota zeta. fold l.
  repeat case_cond; try (left; split; reflexivity).
  right. eexists. split; reflexivity.
Qed.

Lemma updateEnemy_wander (f : Frame) (g : GameState) (e : t) (p : Vec3) :
  ghostMesh e = Some p -> phase (ghostState e) = wander ->
  let r := handleWanderPhase f g
             (set_y (4 + Math_sin (now f * 0.001 * 2) * 0.5) p,
              ghostState e) in
  fst (updateEnemy f g e) = mk (Some (fst r)) (snd r).
Proof.
  intros Hm Hph r. unfold updateEnemy. rewrite Hm. cbv zeta.
  rewrite Hph. cbn [phase_eqb negb andb]. unfold r.
  destruct (handleWanderPhase f g _) as [p' s']. reflexivity.
Qed.

(** X13. The ghost teleports only to a door that is open: when a call of
    [updateEnemy] brings it into the stalk phase, with the index draw in
    range, it stands at (-18, 4, -2) targeting the left door, which is open,
    or at (18, 4, -2) targeting the right door, which is open. *)
Theorem teleport_target (f : Frame) (g : GameState) (e : t) :
  phase (ghostState e) <> stalk ->
  phase (ghostState (fst (updateEnemy f g e))) = stalk ->
  0 <= random f 1 -> random f 1 < 1 ->
  (attackSide (ghostState (fst (updateEnemy f g e))) = side_left
   /\ leftOpen g = true
   /\ ghostMesh (fst (updateEnemy f g e)) = Some (vec3 (-18) 4 (-2)))
  \/ (attackSide (ghostState (fst (updateEnemy f g e))) = side_right
      /\ rightOpen g = true
      /\ ghostMesh (fst (updateEnemy f g e)) = Some (vec3 18 4 (-2))).
Proof.
  intros Hne Hst H0 H1.
  destruct (EnemyFacts.updateEnemy_entry f g e Hne Hst) as (_ & Hw & Hf & _).
  destruct (ghostMesh e) as [p|] eqn:Hm.
  2: { unfold updateEnemy in Hst. rewrite Hm in Hst. cbn in Hst. congruence. }
  rewrite (updateEnemy_wander f g e p Hm Hw) in *. cbn [ghostState ghostMesh] in *.
  destruct (wander_dark_outcome f g
              (set_y (4 + Math_sin (now f * 0.001 * 2) * 0.5) p)
              (ghostState e) Hf) as [[Hsame _]|(gh & Hl & Hr)].
  - congruence.
  - rewrite Hr. 
    destruct (chosen_side_open (leftOpen g) (rightOpen g) (random f 1) H0 H1 Hl)
      as [[Hc Ho]|[Hc Ho]]; rewrite Hc; [left|right]; repeat split; assumption.
Qed.

(** X14. The ghost starts an approach only from the wander phase, with the light
    on and more than 6 units from the middle of its path; it targets a door,
    and the only open door when exactly one is open. *)
Theorem approach_entry (f : Frame) (g : GameState) (e : t) :
  phase (ghostState e) <> approach ->
  phase (ghostState (fst (updateEnemy f g e))) = approach ->
  let e' := fst (updateEnemy f g e) in
  phase (ghostState e) = wander
  /\ flashlightOn g = true
  /\ random f 0 < 0.005
  /\ (exists p', ghostMesh e' = Some p' /\ 6 < Qabs (vx p'))
  /\ is_door (attackSide (ghostState e'))
  /\ (leftOpen g = true -> rightOpen g = false ->
      attackSide (ghostState e') = side_left)
  /\ (rightOpen g = true -> leftOpen g = false ->
      attackSide (ghostState e') = side_right).
Proof.
  unfold is_door. intros Hne.
  walk_updateEnemy e; intros; try discriminate; try contradiction;
    bprop; repeat split; try assumption; try congruence;
    try (eexists; split; [reflexivity | assumption]); auto;
    intros; destruct (leftOpen g), (rightOpen g); cbn in *; congruence.
Qed.

(** With the light on, a wander tick keeps the phase and the target or
    starts an approach on a door. *)
Lemma wander_lit_outcome (f : Frame) (g : GameState) (p : Vec3)
    (s : GhostState) :
  flashlightOn g = true ->
  let r := handleWanderPhase f g (p, s) in
  (phase (snd r) = phase s /\ attackSide (snd r) = attackSide s)
  \/ (phase (snd r) = approach /\ is_door (attackSide (snd r))).
Proof.
  intros Hf r. unfold r, handleWanderPhase, triggerNormalAttack, is_door.
  rewrite Hf. destruct s as [ph sd wt rt st ex]. cbn.
  repeat (case_cond; cbn); auto.
Qed.

(** What the array read gives: an element, or [undefined]. *)
Lemma array_get_cases (l : list Side) (i : Z) :
  array_get l i = side_undefined \/ In (array_get l i) l.
Proof.
  unfold array_get. destruct (i <? 0)%Z; [left; reflexivity|].
  destruct (nth_in_or_default (Z.to_nat i) l side_undefined); auto.
Qed.

(** Outside the wander phase a tick never changes the target. *)
Lemma updateEnemy_keeps_side (f : Frame) (g : GameState) (e : t) :
  phase (ghostState e) <> wander ->
  attackSide (ghostState (fst (updateEnemy f g e)))
  = attackSide (ghostState e).
Proof.
  intro Hne. walk_updateEnemy e; try reflexivity; contradiction.
Qed.

Lemma updateEnemy_side_ok (f : Frame) (g : GameState) (e : t) :
  0 <= random f 1 -> random f 1 < 1 ->
  side_ok (ghostState e) -> side_ok (ghostState (fst (updateEnemy f g e))).
Proof.
  unfold side_ok. intros H0 H1 [Hu Hd].
  destruct (phase (ghostState e)) eqn:Hph.
  2-5: rewrite updateEnemy_keeps_side by congruence;
       split; [exact Hu | intros _; apply Hd; congruence].
  destruct (ghostMesh e) as [p|] eqn:Hm.
  2: { unfold updateEnemy. rewrite Hm. cbn. split; [exact Hu|]. congruence. }
  rewrite (updateEnemy_wander f g e p Hm Hph). cbn [ghostState].
  destruct (flashlightOn g) eqn:Hf.
  - destruct (wander_lit_outcome f g
                (set_y (4 + Math_sin (now f * 0.001 * 2) * 0.5) p)
                (ghostState e) Hf) as [[Hp Hs]|[Hp Hs]].
    + rewrite Hp, Hs. split; [exact Hu | congruence].
    + split; [|intros _; exact Hs].
      destruct Hs as [Hs|Hs]; rewrite Hs; discriminate.
  - destruct (wander_dark_outcome f g
                (set_y (4 + Math_sin (now f * 0.001 * 2) * 0.5) p)
                (ghostState e) Hf) as [[Hp Hs]|(gh & Hl & Hr)].
    + rewrite Hp, Hs. split; [exact Hu | congruence].
    + rewrite Hr.
      destruct (chosen_side_open (leftOpen g) (rightOpen g) (random f 1)
                  H0 H1 Hl) as [[Hc _]|[Hc _]]; rewrite Hc; cbn;
        split; try discriminate; intros _; unfold is_door; auto.
Qed.

(** A ghost that blocks a door after a tick blocked it before the tick, or
    has just teleported to it, and then the door is open. *)
Lemma updateEnemy_blocking (f : Frame) (g : GameState) (e : t)
    (side : Side) :
  side = side_left \/ side = side_right ->
  isGhostBlockingDoor side (fst (updateEnemy f g e)) = true ->
  isGhostBlockingDoor side e = true
  \/ (if side_eqb side side_left then leftOpen g else rightOpen g) = true.
Proof.
  intros Hside Hb. unfold isGhostBlockingDoor in *.
  apply andb_true_iff in Hb. destruct Hb as [Hst Hsd].
  assert (Hst' : phase (ghostState (fst (updateEnemy f g e))) = stalk)
    by (destruct (phase (ghostState (fst (updateEnemy f g e))));
        try discriminate; reflexivity).
  destruct (phase (ghostState e)) eqn:Hph.
  - (* a teleport *)
    right.
    assert (Hne : phase (ghostState e) <> stalk) by congruence.
    destruct (EnemyFacts.updateEnemy_entry f g e Hne Hst')
      as (_ & _ & Hf & _).
    destruct (ghostMesh e) as [p|] eqn:Hm.
    2: { unfold updateEnemy in Hst'. rewrite Hm in Hst'. cbn in Hst'.
         congruence. }
    rewrite (updateEnemy_wander f g e p Hm Hph) in *.
    cbn [ghostState] in *.
    destruct (wander_dark_outcome f g
                (set_y (4 + Math_sin (now f * 0.001 * 2) * 0.5) p)
                (ghostState e) Hf) as [[Hp _]|(gh & Hl & Hr)];
      [congruence|].
    rewrite Hr in Hsd.
    change (attackSide (snd (teleportToDoor ?c gh))) with c in Hsd.
    match type of Hsd with
    | side_eqb (array_get ?l ?i) _ = true =>
      destruct (array_get_cases l i) as [Hc|Hc]
    end.
    + rewrite Hc in Hsd. destruct Hside; subst; discriminate.
    + match type of Hsd with
      | side_eqb ?c _ = true => remember c as c0 eqn:Hc0 in *
      end.
      clear Hc0.
      destruct (leftOpen g), (rightOpen g); cbn in Hc;
        destruct Hside; subst; cbn;
        intuition (subst; try discriminate; try reflexivity).
  - apply EnemyFacts.updateEnemy_entry with (f := f) (g := g) in Hst';
      [|congruence]. destruct Hst' as (_ & Hw & _). congruence.
  - left. rewrite updateEnemy_keeps_side in Hsd by congruence.
    rewrite Hsd. reflexivity.
  - apply EnemyFacts.updateEnemy_entry with (f := f) (g := g) in Hst';
      [|congruence]. destruct Hst' as (_ & Hw & _). congruence.
  - apply EnemyFacts.updateEnemy_entry with (f := f) (g := g) in Hst';
      [|congruence]. destruct Hst' as (_ & Hw & _). congruence.
Qed.

End WithExternals.

End EnemyMoves.

(** ** More on the session *)

Module SessionFacts.
Import Game.
Import GameFacts.

Section WithExternals.
Context {E : Externals}.

(** *** Doors and the ghost *)

Lemma step_broken_doors_open (ev : Event) (w : World) :
  broken_doors_open w -> broken_doors_open (step ev w).
Proof.
  unfold broken_doors_open. intro H. destruct ev; cbn [step].
  7: { destruct (animate_parts f w) as (_ & _ & _ & Hl & Hr & Hlb & Hrb & _).
       intros d. destruct d; cbn [isOpen isBroken];
         rewrite ?Hl, ?Hr, ?Hlb, ?Hrb; [apply (H LeftDoor)|apply (H RightDoor)]. }
  all: pose proof (H LeftDoor) as HL; pose proof (H RightDoor) as HR;
    clear H; try destruct code; run_handlers w; intros d; destruct d;
    cbn in *; intros; subst; try discriminate; try reflexivity; auto;
    destruct lo, ro, lb, rb; cbn in *; auto; discriminate.
Qed.

(** X18. A broken door is never closed: in every state a session reaches, through
    key presses, frames and restarts, a door marked broken is open. *)
Theorem broken_implies_open (evs : list Event) (d : Door) :
  isBroken d (gameState (run evs initial)) = true ->
  isOpen d (gameState (run evs initial)) = true.
Proof.
  assert (H : forall w, broken_doors_open w -> broken_doors_open (run evs w)).
  { induction evs as [|ev evs IH]; intros w Hw; cbn; [exact Hw|].
    apply IH. now apply step_broken_doors_open. }
  apply H. intros d0. destruct d0; discriminate.
Qed.

(** X19. A door breaks in one way only: its key is pressed in a running game
    while it is open and the ghost stalks at it. The press leaves the door
    open, and the ghost in retreat with both stalk timers at 0. And every
    such press does break the door. *)
Theorem door_breaks_on_stalker (ev : Event) (w : World) (d : Door) :
  isBroken d (gameState w) = false ->
  (isBroken d (gameState (step ev w)) = true ->
   ev = KeyDown (key_of d)
   /\ isPlaying (gameState w) = true /\ isGameOver (gameState w) = false
   /\ isOpen d (gameState w) = true
   /\ Enemy.isGhostBlockingDoor (side_of d) (enemy w) = true
   /\ isOpen d (gameState (step ev w)) = true
   /\ Enemy.phase (ghost (step ev w)) = Enemy.retreat
   /\ Enemy.timers_zero (ghost (step ev w)))
  /\ (isPlaying (gameState w) = true -> isGameOver (gameState w) = false ->
      isOpen d (gameState w) = true ->
      Enemy.isGhostBlockingDoor (side_of d) (enemy w) = true ->
      isBroken d (gameState (step (KeyDown (key_of d)) w)) = true).
Proof.
  intro Hnb. split.
  - unfold ghost, Enemy.timers_zero. destruct ev; cbn [step].
    7: { destruct (animate_parts f w) as (_ & _ & _ & _ & _ & Hlb & Hrb & _).
         destruct d; cbn [isBroken] in *; rewrite ?Hlb, ?Hrb; congruence. }
    all: try destruct code; destruct d; run_handlers w; intros; subst;
      try discriminate; repeat split; try reflexivity; try assumption;
      destruct pl, go; cbn in *; try discriminate; try reflexivity;
      try assumption;
      destruct lo, ro; cbn in *; try discriminate;
      first [reflexivity | assumption].
  - destruct d; cbn [step key_of side_of isOpen isBroken] in *;
      run_handlers w; intros; subst; try discriminate; try reflexivity;
      cbn in *; congruence.
Qed.

Lemma step_stalked_door_open (ev : Event) (w : World) :
  stalked_door_open w -> stalked_door_open (step ev w).
Proof.
  unfold stalked_door_open. intro H. destruct ev; cbn [step].
  7: { destruct (animate_parts f w) as (_ & He & _ & Hl & Hr & _).
       intros d Hb. rewrite He in Hb.
       assert (Hgoal : isOpen d (gameState w) = true).
       { destruct (_ && _).
         - apply EnemyMoves.updateEnemy_blocking in Hb;
             [|destruct d; cbn; auto].
           destruct Hb as [Hb|Hb]; [now apply H|].
           destruct d; cbn in *; destruct (gameState w); exact Hb.
         - now apply H. }
       destruct d; cbn [isOpen] in *; rewrite ?Hl, ?Hr; exact Hgoal. }
  all: pose proof (H LeftDoor) as HL; pose proof (H RightDoor) as HR;
    clear H; try destruct code; run_handlers w; intros d; destruct d;
    cbn in *; intros; subst; try discriminate; try reflexivity; auto;
    destruct ph, sd; cbn in *; try discriminate; auto;
    destruct lo, ro; cbn in *; auto; discriminate.
Qed.

(** X20. The ghost only ever stalks at an open door: it teleports to an open
    one, and the key that would close that door breaks it instead. *)
Theorem stalker_door_is_open (evs : list Event) (d : Door) :
  Enemy.isGhostBlockingDoor (side_of d) (enemy (run evs initial)) = true ->
  isOpen d (gameState (run evs initial)) = true.
Proof.
  assert (H : forall w, stalked_door_open w -> stalked_door_open (run evs w)).
  { induction evs as [|ev evs IH]; intros w Hw; cbn; [exact Hw|].
    apply IH. now apply step_stalked_door_open. }
  apply H. intros d0. destruct d0; reflexivity.
Qed.

(** *** The ghost over a session *)

Lemma step_attack (ev : Event) (w : World) :
  restarts ev w = false ->
  Enemy.phase (ghost w) = Enemy.attack ->
  Enemy.phase (ghost (step ev w)) = Enemy.attack.
Proof.
  unfold ghost. destruct ev; cbn [step restarts].
  7: { intros _ Ha. destruct (animate_parts f w) as (_ & He & _).
       rewrite He. destruct (_ && _); [|exact Ha].
       now apply EnemyMoves.updateEnemy_attack. }
  all: try destruct code; run_handlers w; intros; subst;
    try discriminate; try reflexivity;
    destruct lo, ro; cbn in *; discriminate.
Qed.

(** X21. Nothing the player does stops an attack: once the ghost is in the attack
    phase it stays there -- through frames, door keys, the flashlight and
    pauses -- until the game is restarted. *)
Theorem attack_is_unstoppable (evs : list Event) : forall w : World,
  Enemy.phase (ghost w) = Enemy.attack ->
  same_session evs w ->
  Enemy.phase (ghost (run evs w)) = Enemy.attack.
Proof.
  induction evs as [|ev evs IH]; intros w Ha Hs; cbn; [exact Ha|].
  destruct Hs as [Hre Hs]. apply IH; [|exact Hs].
  now apply step_attack.
Qed.

Lemma step_before_load (ev : Event) (w : World) :
  not_loaded ev ->
  enemy w = Enemy.initial /\ gameOverCalls w = 0%nat
  /\ isGameOver (gameState w) = false ->
  enemy (step ev w) = Enemy.initial /\ gameOverCalls (step ev w) = 0%nat
  /\ isGameOver (gameState (step ev w)) = false.
Proof.
  destruct ev; cbn [step not_loaded]; try contradiction.
  6: { intros _ (He & Hc & Hg).
       destruct (animate_parts f w) as (_ & He' & Hc' & _ & _ & _ & _ & Hg').
       rewrite He', Hc', Hg', He, Hc, Hg.
       destruct (isPlaying (gameState w)); cbn; repeat split; reflexivity. }
  all: try destruct code; run_handlers w; intros _ (He & Hc & Hg);
    inversion He; subst; try discriminate; repeat split;
    destruct lo, ro; cbn in *; discriminate.
Qed.

(** X22. Until the ghost's model has loaded the ghost does nothing: whatever else
    happens, its state stays the initial one, [onGameOver] never runs and
    the game is not over. *)
Theorem ghost_waits_for_model (evs : list Event) :
  Forall not_loaded evs ->
  enemy (run evs initial) = Enemy.initial
  /\ gameOverCalls (run evs initial) = 0%nat
  /\ isGameOver (gameState (run evs initial)) = false.
Proof.
  assert (H : forall w,
    Forall not_loaded evs ->
    enemy w = Enemy.initial /\ gameOverCalls w = 0%nat
    /\ isGameOver (gameState w) = false ->
    enemy (run evs w) = Enemy.initial /\ gameOverCalls (run evs w) = 0%nat
    /\ isGameOver (gameState (run evs w)) = false).
  { induction evs as [|ev evs IH]; intros w Hok Hw; cbn; [exact Hw|].
    inversion Hok; subst. apply IH; [assumption|].
    now apply step_before_load. }
  intro Hok. apply H; [exact Hok|]. repeat split.
Qed.

(** *** The flashlight over a session *)

Lemma times_onGameOver_flag (n : nat) : forall w,
  flashlightOn (gameState (times n onGameOver w)) = flashlightOn (gameState w).
Proof.
  induction n as [|n IH]; intro w; [reflexivity|].
  cbn [times]. rewrite IH. destruct w as [[pl lo ro lb rb go fo] fl e c].
  reflexivity.
Qed.

Lemma animate_flashlightOn (f : Frame) (w : World) :
  flashlightOn (gameState (animate f w))
  = Flashlight.isOn (flashlightSystem (animate f w)).
Proof.
  destruct (animate_parts f w) as (Hf & _). rewrite Hf.
  unfold animate. destruct w as [[pl lo ro lb rb go fo] fl e c]. cbn.
  destruct (pl && negb go); [|reflexivity].
  destruct (Enemy.updateEnemy f _ e) as [e' calls].
  rewrite times_onGameOver_flag. reflexivity.
Qed.

Lemma step_flashlight_ok (ev : Event) (w : World) :
  event_ok ev -> flashlight_ok w -> flashlight_ok (step ev w).
Proof.
  unfold flashlight_ok. intros Hok [Hr Hd]. destruct ev; cbn [step].
  7: { destruct (animate_parts f w) as (Hf & _). rewrite Hf. split.
       - now apply FlashlightFacts.update_in_range.
       - apply (FlashlightFacts.apply_op_depleted_off (Flashlight.Update (dt f))).
         exact Hd. }
  - (* a click on the overlay *)
    unfold onOverlayClick. destruct (isGameOver (gameState w)); [|auto].
    unfold restartGame, Flashlight.in_range, Flashlight.depleted_off,
      Flashlight.toggle, Flashlight.turnOffVisuals, Flashlight.maxBattery.
    destruct w as [[pl lo ro lb rb go fo] [on dep b u r bx li] e n].
    destruct on; cbn; repeat split; intros; try discriminate; lra.
  - destruct w as [[pl lo ro lb rb go fo] fl e n]; cbn in *. auto.
  - unfold onKeyDown, keyQ, keyE, triggerDoorBreak.
    destruct w as [[pl lo ro lb rb go fo] fl e n]; cbn in *.
    destruct code; repeat (case_cond; cbn); auto.
  - unfold onMouseDown. destruct (isPlaying (gameState w)); [|auto].
    destruct w as [[pl lo ro lb rb go fo] fl e n]; cbn in *. split.
    + now apply FlashlightFacts.pressButton_in_range.
    + apply (FlashlightFacts.apply_op_depleted_off Flashlight.PressButton).
      exact Hd.
  - unfold onMouseUp. destruct (isPlaying (gameState w)); [|auto].
    destruct w as [[pl lo ro lb rb go fo] fl e n]; cbn in *. split.
    + now apply FlashlightFacts.releaseButton_in_range.
    + apply (FlashlightFacts.apply_op_depleted_off Flashlight.ReleaseButton).
      exact Hd.
  - destruct w as [[pl lo ro lb rb go fo] fl e n]; cbn in *. auto.
Qed.

(** X24. Over a whole session, restarts included, with time steps that are not
    negative: the battery stays between 0 and 6, the flashlight is never on
    and depleted at once, a depleted flashlight has its battery at 0, and
    after every frame the flag the ghost reads, [gameState.flashlightOn], is
    the flashlight's [isOn]. *)
Theorem session_flashlight (evs : list Event) :
  Forall event_ok evs ->
  let fl := flashlightSystem (run evs initial) in
  0 <= Flashlight.battery fl /\ Flashlight.battery fl <= 6
  /\ Flashlight.isOn fl && Flashlight.isDepleted fl = false
  /\ (Flashlight.isDepleted fl = true -> Flashlight.battery fl = 0)
  /\ (forall f,
        flashlightOn (gameState (animate f (run evs initial)))
        = Flashlight.isOn (flashlightSystem (animate f (run evs initial)))).
Proof.
  assert (H : forall w, Forall event_ok evs -> flashlight_ok w ->
                        flashlight_ok (run evs w)).
  { induction evs as [|ev evs IH]; intros w Hev Hw; cbn; [exact Hw|].
    inversion Hev; subst. apply IH; [assumption|].
    now apply step_flashlight_ok. }
  intros Hok fl.
  destruct (H initial Hok) as [[H0 H6] Hd].
  { split; [apply FlashlightFacts.constructed_in_range|].
    intro Hc. discriminate Hc. }
  fold fl in H0, H6, Hd. unfold Flashlight.depleted_off in Hd.
  repeat split; try assumption.
  - destruct (Flashlight.isDepleted fl); [|apply andb_false_r].
    destruct (Hd eq_refl) as [Hon _]. rewrite Hon. reflexivity.
  - intro Hdep. apply Hd. exact Hdep.
  - intro f. apply animate_flashlightOn.
Qed.

(** *** The timers of the flashlight over a session *)

Lemma apply_op_timers_in_bounds (o : Flashlight.op) (f : Flashlight.t) :
  Flashlight.op_ok o -> Flashlight.timers_in_bounds f ->
  Flashlight.timers_in_bounds (Flashlight.apply_op o f).
Proof.
  unfold Flashlight.timers_in_bounds.
  destruct o; cbn;
    unfold Flashlight.pressButton, Flashlight.releaseButton,
      Flashlight.update, Flashlight.toggle, Flashlight.consumeBatteryStep,
      Flashlight.triggerDepletion, Flashlight.turnOffVisuals,
      Flashlight.rechargeDelay, Flashlight.drainRate;
    intros Hok (Hr & Hu);
    destruct f as [on dep b u r bx li]; cbn in *;
    destruct on; cbn in *;
    try (specialize (Hu eq_refl));
    repeat (case_cond; cbn in * ); bprop;
    repeat split; intros; try discriminate; try lra.
Qed.

Lemma step_timers_in_bounds (ev : Event) (w : World) :
  event_ok ev ->
  Flashlight.timers_in_bounds (flashlightSystem w) ->
  Flashlight.timers_in_bounds (flashlightSystem (step ev w)).
Proof.
  intros Hok H. destruct ev; cbn [step].
  7: { destruct (animate_parts f w) as (Hf & _). rewrite Hf.
       now apply (apply_op_timers_in_bounds (Flashlight.Update (dt f))). }
  - (* a click on the overlay *)
    unfold onOverlayClick. destruct (isGameOver (gameState w)); [|exact H].
    unfold restartGame, Flashlight.timers_in_bounds, Flashlight.toggle,
      Flashlight.turnOffVisuals in *.
    destruct w as [[pl lo ro lb rb go fo] [on dep b u r bx li] e n].
    cbn in *. destruct H as [Hr _].
    destruct on; cbn; split; try exact Hr; intros; discriminate.
  - destruct w as [[pl lo ro lb rb go fo] fl e n]; exact H.
  - unfold onKeyDown, keyQ, keyE, triggerDoorBreak.
    destruct w as [[pl lo ro lb rb go fo] fl e n]; cbn in *.
    destruct code; repeat (case_cond; cbn); exact H.
  - unfold onMouseDown. destruct (isPlaying (gameState w)); [|exact H].
    destruct w as [[pl lo ro lb rb go fo] fl e n]; cbn in *.
    now apply (apply_op_timers_in_bounds Flashlight.PressButton).
  - unfold onMouseUp. destruct (isPlaying (gameState w)); [|exact H].
    destruct w as [[pl lo ro lb rb go fo] fl e n]; cbn in *.
    now apply (apply_op_timers_in_bounds Flashlight.ReleaseButton).
  - destruct w as [[pl lo ro lb rb go fo] fl e n]; exact H.
Qed.

(** X7. Over a whole session, restarts included, with time steps that are
    not negative: the recharge timer is always from 0 up to, not including,
    5, and while the light is on the usage timer is from 0 up to, not
    including, 3. *)
Theorem session_timers (evs : list Event) :
  Forall event_ok evs ->
  let fl := flashlightSystem (run evs initial) in
  (0 <= Flashlight.rechargeTimer fl /\ Flashlight.rechargeTimer fl < 5)
  /\ (Flashlight.isOn fl = true ->
      0 <= Flashlight.usageTimer fl /\ Flashlight.usageTimer fl < 3).
Proof.
  assert (H : forall w, Forall event_ok evs ->
                        Flashlight.timers_in_bounds (flashlightSystem w) ->
                        Flashlight.timers_in_bounds
                          (flashlightSystem (run evs w))).
  { induction evs as [|ev evs IH]; intros w Hev Hw; cbn; [exact Hw|].
    inversion Hev; subst. apply IH; [assumption|].
    now apply step_timers_in_bounds. }
  intros Hok fl. apply (H initial Hok).
  unfold Flashlight.timers_in_bounds, Flashlight.rechargeDelay,
    Flashlight.drainRate. cbn.
  split; [split; lra | intro Hc; discriminate Hc].
Qed.

(** *** The target of the ghost *)

Lemma step_side_ok (ev : Event) (w : World) :
  draws_ok ev -> Enemy.side_ok (ghost w) -> Enemy.side_ok (ghost (step ev w)).
Proof.
  unfold ghost. destruct ev; cbn [step draws_ok].
  7: { intros [H0 H1] H. destruct (animate_parts f w) as (_ & He & _).
       rewrite He. destruct (_ && _); [|exact H].
       now apply EnemyMoves.updateEnemy_side_ok. }
  all: try destruct code; unfold Enemy.side_ok, Enemy.is_door;
    run_handlers w; intros _ [Hu Hd]; split; intros; subst;
    try discriminate; try contradiction; auto;
    try (apply Hd; discriminate);
    destruct ph, sd; cbn in *; try discriminate; auto;
    try (apply Hd; discriminate);
    destruct lo, ro; cbn in *; discriminate.
Qed.

(** X25. With every index draw in range, [attackSide] is never [undefined], and
    outside the wander phase it is ['left'] or ['right']: approach, stalk,
    attack and retreat always have a door to work on. *)
Theorem target_is_a_door (evs : list Event) :
  Forall draws_ok evs ->
  let s := ghost (run evs initial) in
  Enemy.attackSide s <> side_undefined
  /\ (Enemy.phase s <> Enemy.wander ->
      Enemy.attackSide s = side_left \/ Enemy.attackSide s = side_right).
Proof.
  assert (H : forall w, Forall draws_ok evs -> Enemy.side_ok (ghost w) ->
                        Enemy.side_ok (ghost (run evs w))).
  { induction evs as [|ev evs IH]; intros w Hev Hw; cbn; [exact Hw|].
    inversion Hev; subst. apply IH; [assumption|].
    now apply step_side_ok. }
  intros Hok s. apply (H initial Hok).
  split; [discriminate | intro Hc; contradiction Hc; reflexivity].
Qed.

End WithExternals.

End SessionFacts.

(** ** The statements above on the sample inputs *)

Module Runs.
Import Samples.

(** Two seconds into the dark the roll comes, and the ghost teleports to the
    left door, which is open. *)
Lemma teleport_target_witness :
  (Enemy.attackSide
     (Enemy.ghostState
        (fst (Enemy.updateEnemy (E := Approx.externals) (frame_ahead 2)
                dark_game (Enemy.modelLoaded Enemy.initial)))) = side_left
   /\ leftOpen dark_game = true
   /\ Enemy.ghostMesh
        (fst (Enemy.updateEnemy (E := Approx.externals) (frame_ahead 2)
                dark_game (Enemy.modelLoaded Enemy.initial)))
      = Some (vec3 (-18) 4 (-2)))
  \/ (Enemy.attackSide
        (Enemy.ghostState
           (fst (Enemy.updateEnemy (E := Approx.externals) (frame_ahead 2)
                   dark_game (Enemy.modelLoaded Enemy.initial)))) = side_right
      /\ rightOpen dark_game = true
      /\ Enemy.ghostMesh
           (fst (Enemy.updateEnemy (E := Approx.externals) (frame_ahead 2)
                   dark_game (Enemy.modelLoaded Enemy.initial)))
         = Some (vec3 18 4 (-2))).
Proof.
  apply (EnemyMoves.teleport_target (E := Approx.externals)).
  - discriminate.
  - vm_compute. reflexivity.
  - vm_compute. discriminate.
  - vm_compute. reflexivity.
Defined.

(** Near the left end of its path with the light on and a low draw, the
    ghost starts an approach on the right door when the left one is shut. *)
Lemma approach_entry_witness :
  Enemy.attackSide
    (Enemy.ghostState
       (fst (Enemy.updateEnemy (E := Approx.externals) (frame_low_draws 0.1)
               left_shut_game wandering_ghost))) = side_right.
Proof.
  destruct (EnemyMoves.approach_entry (E := Approx.externals)
              (frame_low_draws 0.1) left_shut_game wandering_ghost)
    as (_ & _ & _ & _ & _ & _ & H).
  - discriminate.
  - vm_compute. reflexivity.
  - apply H; reflexivity.
Defined.

Lemma broken_implies_open_witness :
  Game.isOpen Game.LeftDoor (Game.gameState (play after_break)) = true.
Proof.
  apply (SessionFacts.broken_implies_open (E := Approx.externals)
           after_break Game.LeftDoor).
  vm_compute. reflexivity.
Defined.

Lemma door_breaks_on_stalker_witness :
  Game.isBroken Game.LeftDoor
    (Game.gameState
       (Game.step (E := Approx.externals) (Game.KeyDown Game.KeyQ)
          (play to_stalk))) = true.
Proof.
  apply (proj2 (SessionFacts.door_breaks_on_stalker (E := Approx.externals)
                  (Game.KeyDown Game.KeyQ) (play to_stalk) Game.LeftDoor
                  ltac:(vm_compute; reflexivity)));
    vm_compute; reflexivity.
Defined.

Lemma stalker_door_is_open_witness :
  Game.isOpen Game.LeftDoor (Game.gameState (play to_stalk)) = true.
Proof.
  apply (SessionFacts.stalker_door_is_open (E := Approx.externals)
           to_stalk Game.LeftDoor).
  vm_compute. reflexivity.
Defined.

Lemma attack_is_unstoppable_witness :
  Enemy.phase
    (Game.ghost (Game.run (E := Approx.externals) panic (play to_attack)))
  = Enemy.attack.
Proof.
  apply (SessionFacts.attack_is_unstoppable (E := Approx.externals) panic
           (play to_attack)).
  - vm_compute. reflexivity.
  - vm_compute. repeat split.
Defined.

Lemma ghost_waits_for_model_witness :
  Game.enemy (play before_load) = Enemy.initial
  /\ Game.gameOverCalls (play before_load) = 0%nat
  /\ isGameOver (Game.gameState (play before_load)) = false.
Proof.
  apply (SessionFacts.ghost_waits_for_model (E := Approx.externals)
           before_load).
  repeat constructor.
Defined.

Lemma session_flashlight_witness :
  0 <= Flashlight.battery (Game.flashlightSystem (play depleted_again)).
Proof.
  apply (SessionFacts.session_flashlight (E := Approx.externals)
           depleted_again).
  apply GameFacts.sample_events_ok. vm_compute. reflexivity.
Defined.

Lemma target_is_a_door_witness :
  Enemy.attackSide (Game.ghost (play banish_trace)) <> side_undefined.
Proof.
  apply (SessionFacts.target_is_a_door (E := Approx.externals) banish_trace).
  unfold banish_trace, to_stalk, frames, click_flashlight.
  repeat (constructor; [cbn; try exact I; split; vm_compute;
                        first [reflexivity | discriminate]|]).
  constructor.
Defined.

(** The session in which the game is restarted one second into a recharge
    delay: the recharge timer is carried over, within its bounds. *)
Lemma session_timers_witness :
  let fl := Game.flashlightSystem (play restarted_in_recharge) in
  (0 <= Flashlight.rechargeTimer fl /\ Flashlight.rechargeTimer fl < 5)
  /\ (Flashlight.isOn fl = true ->
      0 <= Flashlight.usageTimer fl /\ Flashlight.usageTimer fl < 3).
Proof.
  apply (SessionFacts.session_timers (E := Approx.externals)
           restarted_in_recharge).
  apply GameFacts.sample_events_ok. vm_compute. reflexivity.
Defined.

End Runs.
